(** * War Room Academy: the rate-limited proxy worker (worker.js)

    A shallow embedding of the worker's request handler [fetch], its
    fixed-window rate limiter [checkRateLimit] and the CORS helpers, and
    the properties of the specification proved against them.

    The handler is asynchronous but awaits every call in sequence, so it
    is modelled as a state-and-exception monad over a [World]: the state
    of the bound KV namespace, the clock, the behaviour of the upstream
    API, and a chronological trace of the calls the handler makes to the
    outside (KV reads and writes, the upstream call, console output). *)

From Stdlib Require Import ZArith String Ascii List Bool Lia QArith.
From stdpp Require Import gmap strings pretty.

Import ListNotations.
Set Warnings "-register-all".
Local Open Scope Z_scope.
Local Open Scope string_scope.

(** ** Worker configuration (worker.js, lines 7-15) *)

Definition ANTHROPIC_API_URL : string := "https://api.anthropic.com/v1/messages".
Definition ANTHROPIC_VERSION : string := "2023-06-01".
Definition MODEL : string := "claude-3-haiku-20240307".
Definition MAX_TOKENS : Z := 500.
Definition TEMPERATURE : Q := (7 # 10)%Q.

Definition RATE_LIMIT_REQUESTS : Z := 50.
Definition RATE_LIMIT_WINDOW : Z := 3600.

(** ** JavaScript values

    The values [JSON.parse] produces, plus [undefined] (the result of
    reading a property that is not there).  Numbers are integers: the
    worker tests numbers for truthiness and with [typeof], where a
    fraction behaves as any non-zero integer, and prints a number only
    when the text field of a content block is one.  An object keeps its
    properties in source order; the last binding of a key is the one
    [JSON.parse] keeps. *)

Inductive JSValue : Type :=
| JUndefined
| JNull
| JBool (b : bool)
| JNum (n : Z)
| JStr (s : string)
| JArr (items : list JSValue)
| JObj (props : list (string * JSValue)).

(** Exceptions and the outcome of an operation that may throw. *)

Inductive Exn : Type :=
| TypeError
| SyntaxError
| StoreError
| NetworkError.

Inductive Outcome (A : Type) : Type :=
| Returned (a : A)
| Thrown (e : Exn).
Arguments Returned {A} a.
Arguments Thrown {A} e.

Definition threw {A : Type} (o : Outcome A) : bool :=
  match o with Returned _ => false | Thrown _ => true end.

(** Sequencing in pure code that may throw (property reads and
    conversions inside array callbacks). *)
Definition obind {A B : Type} (o : Outcome A) (k : A -> Outcome B) : Outcome B :=
  match o with Returned a => k a | Thrown e => Thrown e end.

(** [!!v] of JavaScript. *)
Definition truthy (v : JSValue) : bool :=
  match v with
  | JUndefined | JNull => false
  | JBool b => b
  | JNum n => negb (Z.eqb n 0)
  | JStr s => negb (String.eqb s EmptyString)
  | JArr _ | JObj _ => true
  end.

(** [typeof v === 'string'] *)
Definition is_string (v : JSValue) : bool :=
  match v with JStr _ => true | _ => false end.

(** [v === 'text'] and the like: strict equality with a string literal. *)
Definition strict_eq_str (v : JSValue) (lit : string) : bool :=
  match v with JStr s => String.eqb s lit | _ => false end.

Fixpoint assoc_last (k : string) (props : list (string * JSValue))
  : option JSValue :=
  match props with
  | [] => None
  | (k', v) :: rest =>
      match assoc_last k rest with
      | Some v' => Some v'
      | None => if String.eqb k k' then Some v else None
      end
  end.

(** [v.k] for the property names the worker reads ([prompt], [message],
    [system], [content], [type], [text]): none of them is inherited from
    a prototype, so a primitive or an array yields [undefined], and
    [null] and [undefined] throw a TypeError. *)
Definition get_prop (v : JSValue) (k : string) : Outcome JSValue :=
  match v with
  | JUndefined | JNull => Thrown TypeError
  | JObj props =>
      Returned (match assoc_last k props with Some x => x | None => JUndefined end)
  | _ => Returned JUndefined
  end.

(** [a || b], with [b] already evaluated (used where [b] cannot throw). *)
Definition js_or (a b : JSValue) : JSValue := if truthy a then a else b.

(** ** Conversion to a string

    [Number::toString] on a number whose value is an integer.  The
    number is a double: [double_of n] is the double nearest to the
    integer [n] (ties to the even significand), which is the number the
    JSON literal [n] parses to, and [n] itself when a double holds it.
    The digits printed are the shortest decimal that rounds to that
    double, the nearest one when several do; they are followed by zeros
    up to 21 digits and written with an exponent beyond.  From
    [2 ^ 1024] on the number is [Infinity]. *)
Definition double_of (n : Z) : Z :=
  if (n <? 2 ^ 53)%Z then n
  else
    let q := (Z.log2 n - 52)%Z in
    let m := (n / 2 ^ q)%Z in
    let r := (n mod 2 ^ q)%Z in
    let up := ((2 * r >? 2 ^ q)%Z || (Z.eqb (2 * r) (2 ^ q) && Z.odd m))%bool in
    ((if up then m + 1 else m) * 2 ^ q)%Z.

(** The shortest decimal that rounds to the double [x], sought among the
    multiples of [10 ^ j], [10 ^ (j - 1)], ..., 1 next to [x]. *)
Fixpoint shortest_decimal (j : nat) (x : Z) : Z :=
  match j with
  | O => x
  | Datatypes.S j' =>
      let scale := (10 ^ Z.of_nat j)%Z in
      let below := (x / scale * scale)%Z in
      let above := (below + scale)%Z in
      let ok_below := ((0 <? below)%Z && Z.eqb (double_of below) x)%bool in
      let ok_above := Z.eqb (double_of above) x in
      if (ok_below && ok_above)%bool then
        if (x - below <? above - x)%Z then below
        else if (above - x <? x - below)%Z then above
        else if Z.even (below / scale) then below else above
      else if ok_below then below
      else if ok_above then above
      else shortest_decimal j' x
  end.

Fixpoint strip_zeros (fuel : nat) (v : Z) : Z :=
  match fuel with
  | O => v
  | Datatypes.S fuel' =>
      if ((0 <? v)%Z && Z.eqb (v mod 10) 0)%bool
      then strip_zeros fuel' (v / 10) else v
  end.

(** [d.ddde+x]: the digits without their trailing zeros, the point after
    the first of them when there are several, and the exponent. *)
Definition exponent_form (v : Z) : string :=
  let n := String.length (pretty v) in
  let e := "e+" +:+ pretty (Z.of_nat n - 1)%Z in
  match pretty (strip_zeros n v) with
  | EmptyString => EmptyString
  | String d EmptyString => String d e
  | String d rest => String d ("." +:+ rest +:+ e)
  end.

Definition Number_toString (n : Z) : string :=
  let x := double_of (Z.abs n) in
  let sign := if (n <? 0)%Z then "-" else EmptyString in
  if Z.eqb x 0 then "0"
  else if (2 ^ 1024 <=? x)%Z then sign +:+ "Infinity"
  else
    let v := shortest_decimal (String.length (pretty x)) x in
    sign +:+ (if (v <? 10 ^ 21)%Z then pretty v else exponent_form v).

(** ToString.  An object is printed by the [toString] method it
    inherits, unless it has a property of that name of its own: a value
    read from JSON is never a function, so the conversion then finds no
    method that yields a primitive and throws a TypeError.  An array is
    printed by [join] with a comma. *)
Fixpoint ToString (v : JSValue) : Outcome string :=
  match v with
  | JUndefined => Returned "undefined"
  | JNull => Returned "null"
  | JBool true => Returned "true"
  | JBool false => Returned "false"
  | JNum n => Returned (Number_toString n)
  | JStr s => Returned s
  | JArr items =>
      (fix go (l : list JSValue) : Outcome string :=
         match l with
         | [] => Returned EmptyString
         | [x] =>
             match x with
             | JUndefined | JNull => Returned EmptyString
             | _ => ToString x
             end
         | x :: rest =>
             obind (match x with
                    | JUndefined | JNull => Returned EmptyString
                    | _ => ToString x
                    end) (fun a =>
             obind (go rest) (fun b =>
             Returned (a +:+ "," +:+ b)))
         end) items
  | JObj props =>
      match assoc_last "toString" props with
      | Some _ => Thrown TypeError
      | None => Returned "[object Object]"
      end
  end.

(** [Array.prototype.join]: [null] and [undefined] elements print as the
    empty string, every other element through ToString, in order; the
    first conversion that throws ends the call. *)
Definition join_with (sep : string) (elt : JSValue -> Outcome string)
  : list JSValue -> Outcome string :=
  fix go (l : list JSValue) : Outcome string :=
    match l with
    | [] => Returned EmptyString
    | [x] => elt x
    | x :: rest =>
        obind (elt x) (fun a =>
        obind (go rest) (fun b =>
        Returned (a +:+ sep +:+ b)))
    end.

Definition join_elt (v : JSValue) : Outcome string :=
  match v with JUndefined | JNull => Returned EmptyString | _ => ToString v end.

Definition array_join (sep : string) (l : list JSValue) : Outcome string :=
  join_with sep join_elt l.

Definition LF : string := String "010"%char EmptyString.

(** ** HTTP data *)

Inductive Body : Type :=
| NoBody                      (* new Response(null, ...) *)
| TextBody (text : string)    (* new Response('...', ...) *)
| JsonBody (v : JSValue).     (* new Response(JSON.stringify(v), ...) *)

Record Response : Type := mkResponse {
  status : Z;
  headers : list (string * string);
  body : Body
}.

(** An incoming request.  [req_json] is the result of [request.json()]:
    [None] when the body is not JSON and the call throws. *)
Record Request : Type := mkRequest {
  method : string;
  req_headers : list (string * string);
  req_json : option JSValue
}.

Definition ascii_lower (c : ascii) : ascii :=
  let n := N_of_ascii c in
  if ((65 <=? n)%N && (n <=? 90)%N)%bool then ascii_of_N (n + 32) else c.

Fixpoint string_lower (s : string) : string :=
  match s with
  | EmptyString => EmptyString
  | String c rest => String (ascii_lower c) (string_lower rest)
  end.

Definition header_values (hs : list (string * string)) (name : string)
  : list string :=
  map snd (List.filter (fun h => String.eqb (string_lower (fst h)) (string_lower name)) hs).

(** [headers.get(name)]: case-insensitive; [null] when the header is
    absent, the values joined by a comma and a space otherwise. *)
Definition Headers_get (hs : list (string * string)) (name : string)
  : option string :=
  match header_values hs name with
  | [] => None
  | vs => Some (String.concat ", " vs)
  end.

(** The outbound request to the upstream API.  Its body is the object
    literal of worker.js lines 81-92 before [JSON.stringify]. *)
Record Message : Type := mkMessage {
  role : string;
  content : JSValue
}.

Record UpstreamBody : Type := mkUpstreamBody {
  ub_model : string;
  ub_max_tokens : Z;
  ub_temperature : Q;
  ub_system : JSValue;
  ub_messages : list Message
}.

Record UpstreamRequest : Type := mkUpstreamRequest {
  up_url : string;
  up_method : string;
  up_headers : list (string * string);
  up_body : UpstreamBody
}.

(** The upstream response: its status, the result of reading its body as
    text ([None] when the body cannot be read and [text()] throws), and
    the result of parsing that body as JSON ([None] when [json()]
    throws). *)
Record UpstreamResponse : Type := mkUpstreamResponse {
  up_status : Z;
  up_text : option string;
  up_json : option JSValue
}.

(** [response.ok]: the status is in the range 200-299. *)
Definition ok (r : UpstreamResponse) : bool :=
  ((200 <=? up_status r)%Z && (up_status r <=? 299)%Z)%bool.

(** ** The quota store *)

Record RateLimitRecord : Type := mkRecord {
  count : Z;
  resetAt : Z
}.

(** A bound KV namespace over a store state [S].  Both calls receive the
    clock (milliseconds) at which they are issued; either may throw.
    [kv_get] is [get(key, { type: 'json' })] and yields [None] for a
    missing or expired key; [kv_put] is
    [put(key, JSON.stringify(value), { expirationTtl: ttl })]. *)
Record KVNamespace (S : Type) : Type := mkKV {
  kv_get : string -> Z -> S -> Outcome (option RateLimitRecord);
  kv_put : string -> RateLimitRecord -> Z -> Z -> S -> Outcome S
}.
Arguments kv_get {S} _ _ _ _.
Arguments kv_put {S} _ _ _ _ _ _.

Record Env (S : Type) : Type := mkEnv {
  RATE_LIMIT : option (KVNamespace S);
  ANTHROPIC_API_KEY : option string
}.
Arguments RATE_LIMIT {S} _.
Arguments ANTHROPIC_API_KEY {S} _.

(** ** The world and the trace of calls *)

Inductive ConsoleLevel : Type := LogLevel | WarnLevel | ErrorLevel.

Inductive Event : Type :=
| EvKvGet (key : string) (failed : bool)
| EvKvPut (key : string) (value : RateLimitRecord) (ttl : Z) (failed : bool)
| EvUpstream (req : UpstreamRequest)
| EvConsole (level : ConsoleLevel) (msg : string).

Record World (S : Type) : Type := mkWorld {
  w_store : S;
  w_clock : Z;
  w_upstream : UpstreamRequest -> Outcome UpstreamResponse;
  w_trace : list Event
}.
Arguments w_store {S} _.
Arguments w_clock {S} _.
Arguments w_upstream {S} _.
Arguments w_trace {S} _.
Arguments mkWorld {S} _ _ _ _.

Definition emit {S : Type} (e : Event) (w : World S) : World S :=
  mkWorld (w_store w) (w_clock w) (w_upstream w) (w_trace w ++ [e]).

Definition set_store {S : Type} (s : S) (w : World S) : World S :=
  mkWorld s (w_clock w) (w_upstream w) (w_trace w).

Definition is_kv_event (e : Event) : bool :=
  match e with EvKvGet _ _ | EvKvPut _ _ _ _ => true | _ => false end.

Definition is_kv_put (e : Event) : bool :=
  match e with EvKvPut _ _ _ _ => true | _ => false end.

Definition is_upstream (e : Event) : bool :=
  match e with EvUpstream _ => true | _ => false end.

Definition kv_failed (e : Event) : bool :=
  match e with
  | EvKvGet _ f => f
  | EvKvPut _ _ _ f => f
  | _ => false
  end.

(** ** The handler monad: state passing over the world, with exceptions

    A thrown exception keeps the effects made before it, as in
    JavaScript; [try_catch] resumes from the world the exception left. *)

Definition M (S A : Type) : Type := World S -> Outcome A * World S.

Definition ret {S A : Type} (a : A) : M S A := fun w => (Returned a, w).

Definition lift {S A : Type} (o : Outcome A) : M S A := fun w => (o, w).

Definition bind {S A B : Type} (m : M S A) (k : A -> M S B) : M S B :=
  fun w =>
    match m w with
    | (Returned a, w') => k a w'
    | (Thrown e, w') => (Thrown e, w')
    end.

Definition try_catch {S A : Type} (m : M S A) (handler : Exn -> M S A) : M S A :=
  fun w =>
    match m w with
    | (Returned a, w') => (Returned a, w')
    | (Thrown e, w') => handler e w'
    end.

Notation "x <- m ;; k" := (bind m (fun x => k))
  (at level 100, m at next level, right associativity).
Notation "m ;; k" := (bind m (fun _ => k))
  (at level 100, right associativity).

(** The receiver of [.filter(...)]: only an array has the method; on
    [null] or [undefined] the property read throws, on anything else the
    call of a non-function does. *)
Definition array_of (v : JSValue) : Outcome (list JSValue) :=
  match v with JArr items => Returned items | _ => Thrown TypeError end.

Fixpoint array_filter (p : JSValue -> Outcome bool) (l : list JSValue)
  : Outcome (list JSValue) :=
  match l with
  | [] => Returned []
  | x :: rest =>
      obind (p x) (fun keep =>
      obind (array_filter p rest) (fun rest' =>
      Returned (if keep then x :: rest' else rest')))
  end.

Fixpoint array_map (f : JSValue -> Outcome JSValue) (l : list JSValue)
  : Outcome (list JSValue) :=
  match l with
  | [] => Returned []
  | x :: rest =>
      obind (f x) (fun y =>
      obind (array_map f rest) (fun rest' =>
      Returned (y :: rest')))
  end.

(** ** Calls to the outside *)

Section Worker.

Context {S : Type}.

Definition Date_now : M S Z := fun w => (Returned (w_clock w), w).

Definition KV_get (ns : KVNamespace S) (key : string)
  : M S (option RateLimitRecord) :=
  fun w =>
    let r := kv_get ns key (w_clock w) (w_store w) in
    (r, emit (EvKvGet key (threw r)) w).

Definition KV_put (ns : KVNamespace S) (key : string)
    (value : RateLimitRecord) (ttl : Z) : M S unit :=
  fun w =>
    match kv_put ns key value ttl (w_clock w) (w_store w) with
    | Returned s' => (Returned tt, emit (EvKvPut key value ttl false) (set_store s' w))
    | Thrown e => (Thrown e, emit (EvKvPut key value ttl true) w)
    end.

(** The global [fetch] of the runtime, called on the upstream API. *)
Definition global_fetch (req : UpstreamRequest) : M S UpstreamResponse :=
  fun w => (w_upstream w req, emit (EvUpstream req) w).

(** Console output; only the leading message is kept. *)
Definition console (level : ConsoleLevel) (msg : string) : M S unit :=
  fun w => (Returned tt, emit (EvConsole level msg) w).

Definition request_json (request : Request) : M S JSValue :=
  match req_json request with
  | Some v => ret v
  | None => lift (Thrown SyntaxError)
  end.

Definition response_json (r : UpstreamResponse) : M S JSValue :=
  match up_json r with
  | Some v => ret v
  | None => lift (Thrown SyntaxError)
  end.

Definition response_text (r : UpstreamResponse) : M S string :=
  match up_text r with
  | Some t => ret t
  | None => lift (Thrown NetworkError)
  end.

(** ** CORS helpers (worker.js, lines 232-247) *)

Definition corsHeaders : list (string * string) :=
  [ ("Content-Type", "application/json");
    ("Access-Control-Allow-Origin", "*");
    ("Access-Control-Allow-Methods", "POST, OPTIONS");
    ("Access-Control-Allow-Headers", "Content-Type");
    ("Access-Control-Max-Age", "86400") ].

Definition handleCORS : Response :=
  {| status := 204; headers := corsHeaders; body := NoBody |}.

(** ** Rate limiting (worker.js, lines 157-226) *)

Record RateLimitResult : Type := mkResult {
  allowed : bool;
  remaining : Z
}.

(** The body of the [try] block, for a bound namespace. *)
Definition checkRateLimit_try (ns : KVNamespace S) (clientIP : string)
  : M S RateLimitResult :=
  let key := "ratelimit:" +:+ clientIP in
  ms <- Date_now ;;
  let now := ms / 1000 in
  data <- KV_get ns key ;;
  match data with
  | None =>
      (* First request from this IP *)
      KV_put ns key
        {| count := 1; resetAt := now + RATE_LIMIT_WINDOW |}
        RATE_LIMIT_WINDOW ;;
      ret {| allowed := true; remaining := RATE_LIMIT_REQUESTS - 1 |}
  | Some data =>
      if (now >? resetAt data)%Z then
        (* Reset counter *)
        KV_put ns key
          {| count := 1; resetAt := now + RATE_LIMIT_WINDOW |}
          RATE_LIMIT_WINDOW ;;
        ret {| allowed := true; remaining := RATE_LIMIT_REQUESTS - 1 |}
      else if (count data >=? RATE_LIMIT_REQUESTS)%Z then
        (* Limit exceeded *)
        ret {| allowed := false; remaining := 0 |}
      else
        (* Increment counter *)
        KV_put ns key
          {| count := count data + 1; resetAt := resetAt data |}
          (resetAt data - now) ;;
        ret {| allowed := true;
               remaining := RATE_LIMIT_REQUESTS - (count data + 1) |}
  end.

Definition checkRateLimit (env : Env S) (clientIP : string)
  : M S RateLimitResult :=
  match RATE_LIMIT env with
  | None =>
      console WarnLevel "RATE_LIMIT KV namespace not bound - rate limiting disabled" ;;
      ret {| allowed := true; remaining := RATE_LIMIT_REQUESTS |}
  | Some ns =>
      try_catch (checkRateLimit_try ns clientIP)
        (fun error =>
           console ErrorLevel "Rate limit check error:" ;;
           (* Fail open *)
           ret {| allowed := true; remaining := RATE_LIMIT_REQUESTS |})
  end.

(** ** The request handler (worker.js, lines 18-146) *)

Definition error_response (st : Z) (msg : string) : Response :=
  {| status := st; headers := corsHeaders;
     body := JsonBody (JObj [("error", JStr msg)]) |}.

(** [request.headers.get('CF-Connecting-IP') || 'unknown'] *)
Definition clientIP_of (request : Request) : string :=
  match Headers_get (req_headers request) "CF-Connecting-IP" with
  | Some ip => if String.eqb ip EmptyString then "unknown" else ip
  | None => "unknown"
  end.

(** [env.ANTHROPIC_API_KEY] when it is truthy. *)
Definition apiKey_of (env : Env S) : option string :=
  match ANTHROPIC_API_KEY env with
  | Some k => if String.eqb k EmptyString then None else Some k
  | None => None
  end.

Definition upstream_request (apiKey : string) (system : JSValue)
    (promptText : JSValue) : UpstreamRequest :=
  {| up_url := ANTHROPIC_API_URL;
     up_method := "POST";
     up_headers :=
       [ ("Content-Type", "application/json");
         ("x-api-key", apiKey);
         ("anthropic-version", ANTHROPIC_VERSION) ];
     up_body :=
       {| ub_model := MODEL;
          ub_max_tokens := MAX_TOKENS;
          ub_temperature := TEMPERATURE;
          ub_system := system;
          ub_messages := [ {| role := "user"; content := promptText |} ] |} |}.

(** Lines 113-116: the text of the [text]-typed content blocks. *)
Definition extract_text (data : JSValue) : Outcome string :=
  obind (get_prop data "content") (fun c =>
  obind (array_of c) (fun blocks =>
  obind (array_filter
           (fun block => obind (get_prop block "type")
                           (fun t => Returned (strict_eq_str t "text")))
           blocks) (fun texts =>
  obind (array_map (fun block => get_prop block "text") texts) (fun strs =>
  array_join LF strs)))).

(** The body of the [try] block of [fetch], lines 30-133. *)
Definition fetch_try (request : Request) (env : Env S) : M S Response :=
  let clientIP := clientIP_of request in
  rateLimitResult <- checkRateLimit env clientIP ;;
  if negb (allowed rateLimitResult) then
    ret (error_response 429 "Rate limit exceeded. Please try again later.")
  else
    body <- request_json request ;;
    prompt <- lift (get_prop body "prompt") ;;
    promptText <- (if truthy prompt then ret prompt
                   else lift (get_prop body "message")) ;;
    if (negb (truthy promptText) || negb (is_string promptText))%bool then
      ret (error_response 400 "Invalid request: prompt is required")
    else
      match apiKey_of env with
      | None =>
          console ErrorLevel "ANTHROPIC_API_KEY not configured" ;;
          ret (error_response 500 "Service configuration error")
      | Some apiKey =>
          system <- lift (get_prop body "system") ;;
          anthropicResponse <-
            global_fetch
              (upstream_request apiKey
                 (js_or system (JStr "You are a helpful AI assistant."))
                 promptText) ;;
          if negb (ok anthropicResponse) then
            errorText <- response_text anthropicResponse ;;
            console ErrorLevel "Anthropic API error:" ;;
            ret (error_response 503 "AI service temporarily unavailable")
          else
            data <- response_json anthropicResponse ;;
            responseText <- lift (extract_text data) ;;
            console LogLevel "Request processed:" ;;
            ret {| status := 200; headers := corsHeaders;
                   body := JsonBody (JObj [("response", JStr responseText)]) |}
      end.

Definition fetch (request : Request) (env : Env S) : M S Response :=
  if String.eqb (method request) "OPTIONS" then
    ret handleCORS
  else if negb (String.eqb (method request) "POST") then
    ret {| status := 405; headers := []; body := TextBody "Method not allowed" |}
  else
    try_catch (fetch_try request env)
      (fun error =>
         console ErrorLevel "Worker error:" ;;
         ret (error_response 500 "An unexpected error occurred")).

End Worker.

(** ** Observing a run *)

(** The events a run appended, given the worlds before and after it. *)
Definition events_since {S : Type} (w w' : World S) : list Event :=
  drop (length (w_trace w)) (w_trace w').

Definition kv_events {S : Type} (w w' : World S) : list Event :=
  List.filter is_kv_event (events_since w w').

Definition event_key (e : Event) : option string :=
  match e with
  | EvKvGet k _ => Some k
  | EvKvPut k _ _ _ => Some k
  | _ => None
  end.

(** [now] as [checkRateLimit] computes it: [Math.floor(Date.now() / 1000)]. *)
Definition now_of {S : Type} (w : World S) : Z := w_clock w / 1000.

(** ** An in-memory quota store

    The fake store of the test scenarios: a finite map from keys to the
    stored record and the second at which the entry expires.  A read
    returns only entries that have not expired; a write with an
    [expirationTtl] below [min_ttl] is refused with an exception, as
    Cloudflare KV does below 60 seconds. *)

Record StoredEntry : Type := mkEntry {
  entry_value : RateLimitRecord;
  entry_expires : Z
}.

Definition mem_get (key : string) (clock : Z) (s : gmap string StoredEntry)
  : Outcome (option RateLimitRecord) :=
  Returned
    match s !! key with
    | Some e => if (clock / 1000 <? entry_expires e)%Z
                then Some (entry_value e) else None
    | None => None
    end.

Definition mem_put (min_ttl : Z) (key : string) (value : RateLimitRecord)
    (ttl clock : Z) (s : gmap string StoredEntry)
  : Outcome (gmap string StoredEntry) :=
  if (ttl <? min_ttl)%Z then Thrown StoreError
  else Returned (<[key := mkEntry value (clock / 1000 + ttl)]> s).

Definition MemKV (min_ttl : Z) : KVNamespace (gmap string StoredEntry) :=
  mkKV _ mem_get (mem_put min_ttl).

(** An environment bound to the in-memory store. *)
Definition mem_env (min_ttl : Z) (apiKey : option string)
  : Env (gmap string StoredEntry) :=
  {| RATE_LIMIT := Some (MemKV min_ttl); ANTHROPIC_API_KEY := apiKey |}.

(** The store that holds the record of the client [unknown] alone, with
    count [c], in the window opened at clock [t]. *)
Definition shared_store (t c : Z) : gmap string StoredEntry :=
  {[ "ratelimit:unknown" :=
       mkEntry {| count := c; resetAt := t / 1000 + RATE_LIMIT_WINDOW |}
         (t / 1000 + RATE_LIMIT_WINDOW) ]}.

(** A namespace whose every call fails. *)
Definition DownKV : KVNamespace (gmap string StoredEntry) :=
  mkKV _ (fun _ _ _ => Thrown StoreError) (fun _ _ _ _ _ => Thrown StoreError).

(** Requests served one after the other, each at its own clock reading. *)
Definition at_clock {S : Type} (t : Z) (w : World S) : World S :=
  mkWorld (w_store w) t (w_upstream w) (w_trace w).

Fixpoint serve {S : Type} (env : Env S) (reqs : list (Z * Request))
    (w : World S) : list (Outcome Response) * World S :=
  match reqs with
  | [] => ([], w)
  | (t, request) :: rest =>
      let '(r, w1) := fetch request env (at_clock t w) in
      let '(rs, w2) := serve env rest w1 in
      (r :: rs, w2)
  end.

(** Every stored record has a count between 1 and the ceiling. *)
Definition store_bounded (s : gmap string StoredEntry) : Prop :=
  forall key e, s !! key = Some e ->
    1 <= count (entry_value e) <= RATE_LIMIT_REQUESTS.

(** What the limiter may append to the trace when it works on [key]. *)
Definition limiter_event (key : string) (e : Event) : bool :=
  match e with
  | EvKvGet k _ => String.eqb k key
  | EvKvPut k _ _ _ => String.eqb k key
  | EvUpstream _ => false
  | EvConsole _ _ => true
  end.

(** [v == null]: the values on which a property read throws. *)
Definition nullish (v : JSValue) : bool :=
  match v with JUndefined | JNull => true | _ => false end.

(** ** Readings of the specification used in the statements below *)

(** The value of a property where the read cannot throw. *)
Definition prop (v : JSValue) (k : string) : JSValue :=
  match get_prop v k with Returned x => x | Thrown _ => JUndefined end.

(** The text-typed blocks of a content list and the text of a block, as
    the specification words them: the text field of a block is a
    string. *)
Definition is_text_block (b : JSValue) : bool := strict_eq_str (prop b "type") "text".

Definition text_field (b : JSValue) : string :=
  match prop b "text" with JStr s => s | _ => EmptyString end.

(** The values [join] prints without throwing: no object with a
    [toString] property of its own, at any depth of nested arrays. *)
Fixpoint printable (v : JSValue) : bool :=
  match v with
  | JArr items => forallb printable items
  | JObj props =>
      match assoc_last "toString" props with Some _ => false | None => true end
  | _ => true
  end.

Definition concat_text_blocks (blocks : list JSValue) : string :=
  String.concat LF (map text_field (List.filter is_text_block blocks)).

(** The prompt field of a body is missing, an empty string, or not a
    string. *)
Definition prompt_missing_or_invalid (b : JSValue) : bool :=
  match prop b "prompt" with
  | JStr s => String.eqb s EmptyString
  | _ => true
  end.

(** A request is answered with [st], with no upstream call and no write
    to the quota store, whose state is left as it was. *)
Definition rejected_untouched {S : Type} (st : Z) (request : Request)
    (env : Env S) (w : World S) : Prop :=
  let '(r, w') := fetch request env w in
  (exists resp, r = Returned resp /\ status resp = st) /\
  existsb is_upstream (events_since w w') = false /\
  existsb is_kv_put (events_since w w') = false /\
  w_store w' = w_store w.

(** A POST that carries no CF-Connecting-IP header. *)
Definition headerless_post (request : Request) : Prop :=
  method request = "POST" /\
  Headers_get (req_headers request) "CF-Connecting-IP" = None.

(** A request is answered with [st] and an empty body. *)
Definition answered_without_body {S : Type} (st : Z) (request : Request)
    (env : Env S) (w : World S) : Prop :=
  exists resp w', fetch request env w = (Returned resp, w') /\
    status resp = st /\ body resp = NoBody.

(** ** Concrete worlds for the examples *)

Definition upstream_hello : UpstreamRequest -> Outcome UpstreamResponse :=
  fun _ => Returned
    {| up_status := 200;
       up_text := Some "(json)";
       up_json := Some (JObj [("content",
                    JArr [ JObj [("type", JStr "text"); ("text", JStr "Hello")];
                           JObj [("type", JStr "tool_use"); ("id", JStr "t1")];
                           JObj [("type", JStr "text"); ("text", JStr "world")] ])]) |}.

Definition upstream_overloaded : UpstreamRequest -> Outcome UpstreamResponse :=
  fun _ => Returned
    {| up_status := 529;
       up_text := Some "upstream diagnostic detail";
       up_json := Some (JObj [("error", JStr "overloaded_error")]) |}.

Definition env_mem : Env (gmap string StoredEntry) :=
  mem_env 60 (Some "sk-test").

Definition env_down : Env (gmap string StoredEntry) :=
  {| RATE_LIMIT := Some DownKV; ANTHROPIC_API_KEY := Some "sk-test" |}.

Definition env_unbound : Env (gmap string StoredEntry) :=
  {| RATE_LIMIT := None; ANTHROPIC_API_KEY := Some "sk-test" |}.

Definition world0 (up : UpstreamRequest -> Outcome UpstreamResponse)
  : World (gmap string StoredEntry) :=
  mkWorld ∅ 1700000000000 up [].

Definition world_with (key : string) (r : RateLimitRecord) (expires : Z)
    (up : UpstreamRequest -> Outcome UpstreamResponse)
  : World (gmap string StoredEntry) :=
  mkWorld {[ key := mkEntry r expires ]} 1700000000000 up [].

Definition post (hs : list (string * string)) (b : JSValue) : Request :=
  {| method := "POST"; req_headers := hs; req_json := Some b |}.

Definition from_ip (ip : string) : list (string * string) :=
  [("CF-Connecting-IP", ip)].

(** * The page script carried after the worker (worker.js, lines 283-394)

    The global functions of the lesson pages that come in the same
    file, after the worker and its deployment notes.  The script has no
    strict-mode directive and its functions are globals of the page. *)

(** ** Configuration (worker.js, lines 286-290) *)

Definition CONFIG_WORKER_URL : string :=
  "https://war-room-academy-chat.smartselleraico.workers.dev".
Definition CONFIG_MIN_CHECKPOINT_LENGTH : Z := 20.
Definition CONFIG_RATE_LIMIT_MESSAGE : string :=
  "Rate limit exceeded. Please try again later.".

(** ** Checkpoint answers (worker.js, lines 325-327)

    An answer is a JavaScript string, taken as its UTF-16 code units:
    [length] counts code units and [trim] strips the WhiteSpace and
    LineTerminator code points, all of which are single code units. *)

Definition is_white_space (c : N) : bool :=
  ((c =? 9) || (c =? 10) || (c =? 11) || (c =? 12) || (c =? 13) ||
   (c =? 32) || (c =? 160) || (c =? 5760) ||
   ((8192 <=? c) && (c <=? 8202)) ||
   (c =? 8232) || (c =? 8233) || (c =? 8239) || (c =? 8287) ||
   (c =? 12288) || (c =? 65279))%N%bool.

Fixpoint trim_start (s : list N) : list N :=
  match s with
  | [] => []
  | c :: rest => if is_white_space c then trim_start rest else s
  end.

Definition trim_end (s : list N) : list N := rev (trim_start (rev s)).

(** [s.trim()] *)
Definition trim (s : list N) : list N := trim_end (trim_start s).

(** A string of white space only. *)
Definition all_white (s : list N) : Prop :=
  List.Forall (fun c => is_white_space c = true) s.

(** [validateCheckpoint(answer, minLength)]; [minLength] is [None] when
    the argument is left out and the default applies. *)
Definition validateCheckpoint (answer : list N) (minLength : option Z) : bool :=
  let minLength :=
    match minLength with
    | Some n => n
    | None => CONFIG_MIN_CHECKPOINT_LENGTH
    end in
  (Z.of_nat (length (trim answer)) >=? minLength)%Z.

(** ** JSON round trip

    [JSON.parse(JSON.stringify(v))] for a value other than [undefined]:
    an [undefined] array element comes back as [null], a property whose
    value is [undefined] is left out. *)
Fixpoint JSON_clone (v : JSValue) : JSValue :=
  match v with
  | JArr items =>
      JArr (map (fun x => match x with
                          | JUndefined => JNull
                          | _ => JSON_clone x
                          end) items)
  | JObj props =>
      JObj ((fix go (ps : list (string * JSValue)) : list (string * JSValue) :=
               match ps with
               | [] => []
               | (k, x) :: rest =>
                   match x with
                   | JUndefined => go rest
                   | _ => (k, JSON_clone x) :: go rest
                   end
               end) props)
  | _ => v
  end.

(** A value as [JSON.parse] produces it: no [undefined] inside. *)
Fixpoint is_json (v : JSValue) : bool :=
  match v with
  | JUndefined => false
  | JArr items => forallb is_json items
  | JObj props =>
      (fix go (ps : list (string * JSValue)) : bool :=
         match ps with
         | [] => true
         | (_, x) :: rest => is_json x && go rest
         end) props
  | _ => true
  end.

(** Induction on values, through the lists nested in them. *)
Section JSValueInduction.

Context (P : JSValue -> Prop).
Context (Hundef : P JUndefined) (Hnull : P JNull)
        (Hbool : forall b, P (JBool b)) (Hnum : forall n, P (JNum n))
        (Hstr : forall s, P (JStr s))
        (Harr : forall items, List.Forall P items -> P (JArr items))
        (Hobj : forall props,
            List.Forall (fun p => P (snd p)) props -> P (JObj props)).

Fixpoint JSValue_nested_ind (v : JSValue) : P v :=
  match v with
  | JUndefined => Hundef
  | JNull => Hnull
  | JBool b => Hbool b
  | JNum n => Hnum n
  | JStr s => Hstr s
  | JArr items =>
      Harr items
        ((fix go (l : list JSValue) : List.Forall P l :=
            match l with
            | [] => @List.Forall_nil _ P
            | x :: rest =>
                @List.Forall_cons _ P x rest (JSValue_nested_ind x) (go rest)
            end) items)
  | JObj props =>
      Hobj props
        ((fix go (l : list (string * JSValue))
            : List.Forall (fun p => P (snd p)) l :=
            match l with
            | [] => @List.Forall_nil _ _
            | p :: rest =>
                @List.Forall_cons _ (fun p => P (snd p)) p rest
                  (JSValue_nested_ind (snd p)) (go rest)
            end) props)
  end.

End JSValueInduction.

(** ** Objects in memory *)

(** [k] bound to [x]: earlier bindings of [k] go, the new one is last. *)
Definition obj_set (k : string) (x : JSValue) (props : list (string * JSValue))
  : list (string * JSValue) :=
  (List.filter (fun p => negb (String.eqb (fst p) k)) props ++ [(k, x)])%list.

(** [target[k] = x] for a key that is not an array index, outside strict
    mode.  The result is the target as [JSON.stringify] will print it
    and the value [target[k]] reads afterwards: an object takes the
    property; an array takes it too, but it is not printed; a primitive
    ignores the assignment; [null] and [undefined] throw. *)
Definition assign (target : JSValue) (k : string) (x : JSValue)
  : Outcome (JSValue * JSValue) :=
  match target with
  | JUndefined | JNull => Thrown TypeError
  | JObj props => Returned (JObj (obj_set k x props), x)
  | JArr _ => Returned (target, x)
  | _ => Returned (target, JUndefined)
  end.

(** The value bound to [k] in [target] has been changed in place and is
    now printed as [x]. *)
Definition in_place (target : JSValue) (k : string) (x : JSValue) : JSValue :=
  match target with
  | JObj props => JObj (obj_set k x props)
  | _ => target
  end.

(** ** The page: storage, document and what the user sees *)

(** An item of [localStorage]: the empty string, a text that is not
    JSON, or a text that parses to [v].  Reading and writing storage is
    taken to succeed (storage is neither disabled nor full). *)
Inductive StoredText : Type :=
| EmptyText
| NotJson
| JsonText (v : JSValue).

(** An element, with its [data-lesson] attribute if it has one. *)
Record Element : Type := mkElement {
  data_lesson : option string;
  classList : list string
}.

Inductive PageEvent : Type :=
| EvAlert (msg : string)
| EvNavigate (href : string)
| EvPageLog (msg : string).

Record Page : Type := mkPage {
  localStorage : gmap string StoredText;
  document : list Element;
  page_trace : list PageEvent
}.

Definition PM (A : Type) : Type := Page -> Outcome A * Page.

Definition pret {A : Type} (a : A) : PM A := fun p => (Returned a, p).

Definition plift {A : Type} (o : Outcome A) : PM A := fun p => (o, p).

Definition pbind {A B : Type} (m : PM A) (k : A -> PM B) : PM B :=
  fun p =>
    match m p with
    | (Returned a, p') => k a p'
    | (Thrown e, p') => (Thrown e, p')
    end.

Notation "x <~ m ;; k" := (pbind m (fun x => k))
  (at level 100, m at next level, right associativity).
Notation "m ~; k" := (pbind m (fun _ => k))
  (at level 100, right associativity).

Definition page_event (e : PageEvent) : PM unit :=
  fun p => (Returned tt,
            mkPage (localStorage p) (document p) (page_trace p ++ [e])%list).

Definition getItem (key : string) : PM (option StoredText) :=
  fun p => (Returned (localStorage p !! key), p).

Definition setItem (key : string) (text : StoredText) : PM unit :=
  fun p => (Returned tt,
            mkPage (<[key := text]> (localStorage p)) (document p) (page_trace p)).

(** [JSON.parse(localStorage.getItem('warRoomProgress') || '{"module1":{}}')]:
    a missing item and the empty string are falsy and give the default. *)
Definition read_progress : PM JSValue :=
  item <~ getItem "warRoomProgress" ;;
  match item with
  | None | Some EmptyText => pret (JObj [("module1", JObj [])])
  | Some NotJson => plift (Thrown SyntaxError)
  | Some (JsonText v) => pret v
  end.

Definition lesson_key (n : Z) : string := "lesson" +:+ pretty n.

(** A boolean, a number or a string. *)
Definition is_primitive (v : JSValue) : bool :=
  match v with JBool _ | JNum _ | JStr _ => true | _ => false end.

(** The progress the page reads from storage, with the default for a
    missing or empty item; [JUndefined] stands for a text that does not
    parse. *)
Definition stored_progress (p : Page) : JSValue :=
  match localStorage p !! "warRoomProgress" with
  | None | Some EmptyText => JObj [("module1", JObj [])]
  | Some NotJson => JUndefined
  | Some (JsonText v) => v
  end.

(** Lesson [k] is marked complete in the stored progress. *)
Definition lesson_done (k : Z) (p : Page) : bool :=
  truthy (prop (prop (stored_progress p) "module1") (lesson_key k)).

(** The stored progress is in the shape [saveProgress] writes: missing,
    empty, or a JSON object whose [module1] is falsy or an object. *)
Definition progress_object (p : Page) : Prop :=
  match localStorage p !! "warRoomProgress" with
  | None | Some EmptyText => True
  | Some (JsonText (JObj props)) =>
      is_json (JObj props) = true /\
      (truthy (prop (JObj props) "module1") = false \/
       exists ps, prop (JObj props) "module1" = JObj ps)
  | _ => False
  end.

(** ** Lesson access (worker.js, lines 293-308) *)

Definition checkAccess (lessonNumber : Z) : PM bool :=
  progress <~ read_progress ;;
  (* Lesson 1 is always accessible *)
  if (lessonNumber =? 1)%Z then pret true
  else
    let previousLesson := lessonNumber - 1 in
    module1 <~ plift (get_prop progress "module1") ;;
    completed <~ plift (get_prop module1 (lesson_key previousLesson)) ;;
    if negb (truthy completed) then
      page_event (EvAlert ("You must complete Lesson " +:+ pretty previousLesson
                             +:+ " first.")) ~;
      page_event (EvNavigate ("lesson-" +:+ pretty previousLesson +:+ ".html")) ~;
      pret false
    else pret true.

(** ** Saving progress (worker.js, lines 311-322) *)

Definition saveProgress (lessonNumber : Z) : PM unit :=
  progress <~ read_progress ;;
  module1 <~ plift (get_prop progress "module1") ;;
  held <~ (if negb (truthy module1)
           then plift (assign progress "module1" (JObj []))
           else pret (progress, module1)) ;;
  marked <~ plift (assign (snd held) (lesson_key lessonNumber) (JBool true)) ;;
  let progress' := in_place (fst held) "module1" (fst marked) in
  setItem "warRoomProgress" (JsonText (JSON_clone progress')) ~;
  page_event (EvPageLog ("Progress saved: Lesson " +:+ pretty lessonNumber
                           +:+ " completed")).

(** ** Progress badges (worker.js, lines 374-384) *)

(** [document.querySelector('[data-lesson="v"]')]: the position of the
    first element carrying that attribute value. *)
Fixpoint query_lesson (v : string) (doc : list Element) : option nat :=
  match doc with
  | [] => None
  | el :: rest =>
      match data_lesson el with
      | Some v' => if String.eqb v' v then Some 0%nat
                   else option_map Datatypes.S (query_lesson v rest)
      | None => option_map Datatypes.S (query_lesson v rest)
      end
  end.

(** [classList.add(c)] *)
Definition class_add (c : string) (el : Element) : Element :=
  if existsb (String.eqb c) (classList el) then el
  else mkElement (data_lesson el) (classList el ++ [c])%list.

Definition add_class_at (i : nat) (c : string) : PM unit :=
  fun p => (Returned tt,
            mkPage (localStorage p) (alter (class_add c) i (document p))
              (page_trace p)).

(** The body of the loop, for one [i]. *)
Definition mark_card (progress : JSValue) (i : Z) : PM unit :=
  fun p =>
    match query_lesson (pretty i) (document p) with
    | None => (Returned tt, p)
    | Some card =>
        (module1 <~ plift (get_prop progress "module1") ;;
         completed <~ plift (get_prop module1 (lesson_key i)) ;;
         if truthy completed then add_class_at card "completed" else pret tt) p
    end.

Fixpoint for_each (l : list Z) (body : Z -> PM unit) : PM unit :=
  match l with
  | [] => pret tt
  | i :: rest => body i ~; for_each rest body
  end.

Definition updateProgressIndicators : PM unit :=
  progress <~ read_progress ;;
  for_each (seqZ 1 4) (mark_card progress).

(** Between two documents nothing happened but, at most, the class
    [completed] being added to elements whose [data-lesson] is one of
    1 to 4. *)
Definition badges_only_added (doc doc' : list Element) : Prop :=
  length doc' = length doc /\
  forall i el, doc !! i = Some el ->
    doc' !! i = Some el \/
    (doc' !! i = Some (class_add "completed" el) /\
     exists j, 1 <= j <= 4 /\ data_lesson el = Some (pretty j)).

(** Lesson [j] is marked complete in [progress]. *)
Definition marked_in (progress : JSValue) (j : Z) : bool :=
  truthy (prop (prop progress "module1") (lesson_key j)).

(** The document after the loop body for [j], when nothing throws. *)
Definition badge_step (progress : JSValue) (doc : list Element) (j : Z)
  : list Element :=
  match query_lesson (pretty j) doc with
  | Some c => if marked_in progress j
              then alter (class_add "completed") c doc else doc
  | None => doc
  end.

(** The DOMContentLoaded listener (worker.js, lines 387-394). *)
Definition on_load : PM unit :=
  has_cards <~ (fun p => (Returned (existsb (fun el => match data_lesson el with
                                                       | Some _ => true
                                                       | None => false
                                                       end) (document p)), p)) ;;
  (if has_cards : bool then updateProgressIndicators else pret tt) ~;
  page_event (EvPageLog "War Room Academy loaded").

(** ** Talking to the worker (worker.js, lines 330-362) *)

(** A response as the page receives it: the status and the result of
    [response.json()], [None] when that call throws. *)
Record Received : Type := mkReceived {
  rc_status : Z;
  rc_json : option JSValue
}.

Definition rc_ok (r : Received) : bool :=
  ((200 <=? rc_status r)%Z && (rc_status r <=? 299)%Z)%bool.

(** What [sendToAI] resolves to: [{success: true, response,
    requestsRemaining}], [{success: false, error}] built from the
    server's body, or [{success: false, error: error.message}] after an
    exception. *)
Inductive AiResult : Type :=
| AiSuccess (response requestsRemaining : JSValue)
| AiFailure (error : JSValue)
| AiException (e : Exn).

(** The request the page sends: the body is
    [JSON.stringify({ message: prompt })] as the server will parse it. *)
Definition client_request (prompt : JSValue) : Request :=
  {| method := "POST";
     req_headers := [("Content-Type", "application/json")];
     req_json := Some (JSON_clone (JObj [("message", prompt)])) |}.

Section Client.

Context {S : Type}.

(** [net] stands for [fetch(CONFIG.WORKER_URL, ...)]: it delivers the
    request and returns the answer, or throws. *)
Definition sendToAI (net : Request -> M S Received) (prompt : JSValue)
  : M S AiResult :=
  try_catch
    (response <- net (client_request prompt) ;;
     data <- match rc_json response with
             | Some v => ret v
             | None => lift (Thrown SyntaxError)
             end ;;
     if rc_ok response then
       response_field <- lift (get_prop data "response") ;;
       requestsRemaining <- lift (get_prop data "requestsRemaining") ;;
       ret (AiSuccess response_field requestsRemaining)
     else
       error <- lift (get_prop data "error") ;;
       ret (AiFailure (js_or error (JStr "Failed to get response"))))
    (fun error => ret (AiException error)).

(** The worker's answer as the page receives it.  A JSON body parses to
    what was printed; an empty body does not parse, and neither does the
    one text body the worker builds ([Method not allowed]). *)
Definition received (r : Response) : Received :=
  {| rc_status := status r;
     rc_json := match body r with
                | JsonBody JUndefined => None
                | JsonBody v => Some (JSON_clone v)
                | NoBody | TextBody _ => None
                end |}.

(** The request as it reaches the worker: the edge adds the sender's
    address. *)
Definition via_edge (ip : string) (request : Request) : Request :=
  {| method := method request;
     req_headers := (req_headers request ++ [("CF-Connecting-IP", ip)])%list;
     req_json := req_json request |}.

(** The deployed worker as the other end of [net]. *)
Definition worker_net (env : Env S) (ip : string) (request : Request)
  : M S Received :=
  r <- fetch (via_edge ip request) env ;;
  ret (received r).

End Client.

(** * The lesson pages' core script (app.js)

    The progress functions of app.js that work on storage alone:
    [getProgressData], [getLastCompletedLesson] and [checkAccess]
    (lines 74-104 and 132-174). *)

Module App.

(** ** Configuration (app.js, lines 9-14) *)

Definition CONFIG_WORKER_URL : string :=
  "https://war-room-academy-chat.smartstelleraico.workers.dev".
Definition CONFIG_MIN_CHECKPOINT_LENGTH : Z := 20.
Definition CONFIG_RATE_LIMIT_MESSAGE : string :=
  "Rate limit exceeded. Please try again in a few minutes.".

Inductive Event : Type :=
| Navigate (href : string)
| ConsoleError (msg : string).

(** The two storages and what the script shows of itself.  Reading
    storage is taken to succeed. *)
Record Browser : Type := mkBrowser {
  local_items : gmap string StoredText;
  session_items : gmap string StoredText;
  trace : list Event
}.

Definition BM (A : Type) : Type := Browser -> Outcome A * Browser.

Definition bret {A : Type} (a : A) : BM A := fun b => (Returned a, b).

Definition blift {A : Type} (o : Outcome A) : BM A := fun b => (o, b).

Definition bbind {A B : Type} (m : BM A) (k : A -> BM B) : BM B :=
  fun b =>
    match m b with
    | (Returned a, b') => k a b'
    | (Thrown e, b') => (Thrown e, b')
    end.

Definition btry {A : Type} (m : BM A) (handler : Exn -> BM A) : BM A :=
  fun b =>
    match m b with
    | (Returned a, b') => (Returned a, b')
    | (Thrown e, b') => handler e b'
    end.

Notation "x <== m ;; k" := (bbind m (fun x => k))
  (at level 100, m at next level, right associativity).
Notation "m ==; k" := (bbind m (fun _ => k))
  (at level 100, right associativity).

Definition emit (e : Event) : BM unit :=
  fun b => (Returned tt,
            mkBrowser (local_items b) (session_items b) (trace b ++ [e])%list).

Definition local_getItem (key : string) : BM (option StoredText) :=
  fun b => (Returned (local_items b !! key), b).

Definition session_getItem (key : string) : BM (option StoredText) :=
  fun b => (Returned (session_items b !! key), b).

(** A stored item as a condition: [null] and the empty string are
    falsy. *)
Definition item_truthy (item : option StoredText) : bool :=
  match item with
  | None | Some EmptyText => false
  | Some _ => true
  end.

(** [JSON.parse(stored)] for a truthy item. *)
Definition JSON_parse (item : option StoredText) : Outcome JSValue :=
  match item with
  | Some (JsonText v) => Returned v
  | _ => Thrown SyntaxError
  end.

Definition default_progress : JSValue :=
  JObj [("module1",
         JObj [ ("lesson1", JBool false); ("lesson2", JBool false);
                ("lesson3", JBool false); ("lesson4", JBool false) ])].

(** ** Reading progress (app.js, lines 74-104) *)

Definition getProgressData : BM JSValue :=
  btry
    (from_local <== local_getItem "warRoomProgress" ;;
     stored <== (if item_truthy from_local then bret from_local
                 else session_getItem "warRoomProgress") ;;
     if item_truthy stored then blift (JSON_parse stored)
     else bret default_progress)
    (fun error =>
       emit (ConsoleError "Error reading progress data:") ==;
       bret default_progress).

(** [v === true] *)
Definition strict_true (v : JSValue) : bool :=
  match v with JBool true => true | _ => false end.

(** ** The last completed lesson (app.js, lines 164-174) *)

(** The loop, over the values [i] still to try. *)
Fixpoint scan_completed (progress : JSValue) (l : list Z) : Outcome Z :=
  match l with
  | [] => Returned 0
  | i :: rest =>
      obind (get_prop progress "module1") (fun module1 =>
      obind (get_prop module1 (lesson_key i)) (fun completed =>
      if strict_true completed then Returned i
      else scan_completed progress rest))
  end.

Definition getLastCompletedLesson : BM Z :=
  progress <== getProgressData ;;
  blift (scan_completed progress [4; 3; 2; 1]).

(** ** Lesson access (app.js, lines 132-158) *)

Definition checkAccess (lessonNumber : Z) : BM bool :=
  btry
    (progress <== getProgressData ;;
     (* Lesson 1 is always accessible *)
     if (lessonNumber =? 1)%Z then bret true
     else
       let previousLesson := lessonNumber - 1 in
       module1 <== blift (get_prop progress "module1") ;;
       completed <== blift (get_prop module1 (lesson_key previousLesson)) ;;
       let hasAccess := strict_true completed in
       if negb hasAccess then
         lastCompleted <== getLastCompletedLesson ;;
         emit (Navigate (if (lastCompleted >? 0)%Z
                         then "lesson-" +:+ pretty lastCompleted +:+ ".html"
                         else "index.html")) ==;
         bret false
       else bret true)
    (fun error =>
       emit (ConsoleError "Error checking access:") ==;
       (* Fail open to avoid locking users out *)
       bret true).

(** The progress [getProgressData] works with: the local item, else the
    session item, else (or when the text does not parse) the default. *)
Definition progress_data (b : Browser) : JSValue :=
  let from_local := local_items b !! "warRoomProgress" in
  let stored := if item_truthy from_local then from_local
                else session_items b !! "warRoomProgress" in
  if item_truthy stored then
    match JSON_parse stored with
    | Returned v => v
    | Thrown _ => default_progress
    end
  else default_progress.

(** Lesson [i] is recorded as [true]. *)
Definition completed (b : Browser) (i : Z) : bool :=
  strict_true (prop (prop (progress_data b) "module1") (lesson_key i)).

(** The progress can be read down to its lessons. *)
Definition lessons_readable (b : Browser) : bool :=
  negb (nullish (progress_data b)) &&
  negb (nullish (prop (progress_data b) "module1")).

(** The events a run appended. *)
Definition added (b b' : Browser) : list Event :=
  drop (length (trace b)) (trace b').

Definition is_navigate (e : Event) : bool :=
  match e with Navigate _ => true | _ => false end.

(** Where [checkAccess] sends a user it turns away. *)
Definition redirect_target (lastCompleted : Z) : string :=
  if (lastCompleted >? 0)%Z
  then "lesson-" +:+ pretty lastCompleted +:+ ".html"
  else "index.html".

End App.

(** * Properties *)

Section WorkerFacts.

Context {S : Type}.
Implicit Types (w : World S) (env : Env S) (ns : KVNamespace S).

Lemma events_since_refl w : events_since w w = [].
Proof. unfold events_since. apply drop_all. Qed.

Lemma events_since_app w w' d :
  w_trace w' = (w_trace w ++ d)%list -> events_since w w' = d.
Proof. unfold events_since. intros ->. apply drop_app_length. Qed.

End WorkerFacts.

Ltac trace_norm :=
  unfold kv_events, events_since; simpl;
  repeat rewrite <- app_assoc; simpl;
  rewrite ?drop_app_length, ?drop_all; simpl.

Ltac limiter_unfold :=
  unfold checkRateLimit, checkRateLimit_try, try_catch, bind, ret,
    Date_now, KV_get, KV_put, console, now_of in *.

(** C1. A request that reaches the limiter with a bound namespace whose
    lookup answers is handled by the fixed-window rule: with no record,
    or past [resetAt], the limiter writes a fresh record
    [{count: 1, resetAt: now + WINDOW}] with expiry [WINDOW] and allows;
    with a record at or over the ceiling it rejects, without a write;
    otherwise it writes [{count + 1, resetAt}] with expiry
    [resetAt - now] and allows.  The store calls made are exactly the
    lookup and that write. *)
Theorem C1_fixed_window_algorithm
    {S : Type} (ns : KVNamespace S) (env : Env S) (id : string)
    (w : World S) (data : option RateLimitRecord) :
  RATE_LIMIT env = Some ns ->
  kv_get ns ("ratelimit:" +:+ id) (w_clock w) (w_store w) = Returned data ->
  let key := "ratelimit:" +:+ id in
  let now := now_of w in
  let r := fst (checkRateLimit env id w) in
  let w' := snd (checkRateLimit env id w) in
  (data = None \/ (exists rec, data = Some rec /\ now > resetAt rec) ->
     exists failed res,
       kv_events w w' =
         [ EvKvGet key false;
           EvKvPut key {| count := 1; resetAt := now + RATE_LIMIT_WINDOW |}
             RATE_LIMIT_WINDOW failed ] /\
       r = Returned res /\ allowed res = true) /\
  (forall rec, data = Some rec -> now <= resetAt rec ->
     count rec >= RATE_LIMIT_REQUESTS ->
       kv_events w w' = [ EvKvGet key false ] /\
       w_store w' = w_store w /\
       r = Returned {| allowed := false; remaining := 0 |}) /\
  (forall rec, data = Some rec -> now <= resetAt rec ->
     count rec < RATE_LIMIT_REQUESTS ->
     exists failed res,
       kv_events w w' =
         [ EvKvGet key false;
           EvKvPut key {| count := count rec + 1; resetAt := resetAt rec |}
             (resetAt rec - now) failed ] /\
       r = Returned res /\ allowed res = true).
Proof.
  intros Hns Hget key now r w'.
  subst r w' key now. limiter_unfold. rewrite Hns, Hget. simpl.
  split; [| split].
  - intros [-> | (rec & -> & Hlate)].
    + destruct (kv_put ns _ _ _ _ _) eqn:Hput.
      * exists false. eexists. trace_norm. eauto.
      * exists true. eexists. trace_norm. eauto.
    + assert (Hgt : (w_clock w / 1000 >? resetAt rec)%Z = true) by lia.
      rewrite Hgt.
      destruct (kv_put ns _ _ _ _ _) eqn:Hput.
      * exists false. eexists. trace_norm. eauto.
      * exists true. eexists. trace_norm. eauto.
  - intros rec -> Hin Hfull.
    assert (Hgt : (w_clock w / 1000 >? resetAt rec)%Z = false) by lia.
    assert (Hge : (count rec >=? RATE_LIMIT_REQUESTS)%Z = true) by lia.
    rewrite Hgt, Hge. trace_norm. auto.
  - intros rec -> Hin Hroom.
    assert (Hgt : (w_clock w / 1000 >? resetAt rec)%Z = false) by lia.
    assert (Hge : (count rec >=? RATE_LIMIT_REQUESTS)%Z = false) by lia.
    rewrite Hgt, Hge.
    destruct (kv_put ns _ _ _ _ _) eqn:Hput.
    + exists false. eexists. trace_norm. eauto.
    + exists true. eexists. trace_norm. eauto.
Qed.

Example C1_fresh_window_example :
  let w := world0 upstream_hello in
  exists failed res,
    kv_events w (snd (checkRateLimit env_mem "1.2.3.4" w)) =
      [ EvKvGet "ratelimit:1.2.3.4" false;
        EvKvPut "ratelimit:1.2.3.4" {| count := 1; resetAt := 1700003600 |}
          3600 failed ] /\
    fst (checkRateLimit env_mem "1.2.3.4" w) = Returned res /\
    allowed res = true.
Proof.
  intro w.
  destruct (C1_fixed_window_algorithm (MemKV 60) env_mem "1.2.3.4" w None
              eq_refl eq_refl) as [H _].
  exact (H (or_introl eq_refl)).
Defined.

(** C4. The limiter fails open: when no namespace is bound, when the
    lookup throws, or when any store call of the run (lookup or write)
    throws, the request is allowed. *)
Theorem C4_fail_open
    {S : Type} (env : Env S) (id : string) (w : World S) :
  RATE_LIMIT env = None \/
  (exists ns, RATE_LIMIT env = Some ns /\
     threw (kv_get ns ("ratelimit:" +:+ id) (w_clock w) (w_store w)) = true) \/
  existsb kv_failed (events_since w (snd (checkRateLimit env id w))) = true ->
  exists res,
    fst (checkRateLimit env id w) = Returned res /\ allowed res = true.
Proof.
  limiter_unfold.
  destruct (RATE_LIMIT env) as [ns|] eqn:Hns; [| simpl; eauto].
  intros [Hno | [(ns' & Heq & Hthrew) | Hfailed]]; [discriminate | |].
  - injection Heq as <-. simpl.
    destruct (kv_get ns _ _ _) as [data|e]; [discriminate |]. simpl. eauto.
  - revert Hfailed. simpl.
    destruct (kv_get ns _ _ _) as [[rec|]|e]; simpl.
    + destruct (_ >? _)%Z.
      * destruct (kv_put ns _ _ _ _ _); simpl; eauto.
      * destruct (_ >=? _)%Z.
        -- trace_norm. discriminate.
        -- destruct (kv_put ns _ _ _ _ _); simpl; eauto.
    + destruct (kv_put ns _ _ _ _ _); simpl; eauto.
    + eauto.
Qed.

Example C4_store_down_example :
  exists res,
    fst (checkRateLimit env_down "1.2.3.4" (world0 upstream_hello)) = Returned res /\
    allowed res = true.
Proof.
  apply (C4_fail_open env_down "1.2.3.4" (world0 upstream_hello)).
  right; left. exists DownKV. split; reflexivity.
Defined.

Example unbound_store_allows :
  checkRateLimit env_unbound "1.2.3.4" (world0 upstream_hello) =
    (Returned {| allowed := true; remaining := 50 |},
     mkWorld ∅ 1700000000000 upstream_hello
       [ EvConsole WarnLevel
           "RATE_LIMIT KV namespace not bound - rate limiting disabled" ]).
Proof. reflexivity. Qed.

(** A write the store refuses is an instance: with thirty seconds left
    in the window the in-memory store, like Cloudflare KV, rejects the
    expiry, the record keeps its count and the request is allowed. *)
Example refused_write_fails_open :
  let w := world_with "ratelimit:1.2.3.4"
             {| count := 3; resetAt := 1700000030 |} 1700000030 upstream_hello in
  checkRateLimit env_mem "1.2.3.4" w =
    (Returned {| allowed := true; remaining := 50 |},
     mkWorld (w_store w) (w_clock w) (w_upstream w)
       [ EvKvGet "ratelimit:1.2.3.4" false;
         EvKvPut "ratelimit:1.2.3.4" {| count := 4; resetAt := 1700000030 |} 30 true;
         EvConsole ErrorLevel "Rate limit check error:" ]).
Proof. reflexivity. Qed.

(** C6. A pre-flight request is answered at once with 204, no body and
    the fixed header set; the world is left exactly as it was, so the
    quota store is neither read nor written and nothing is sent
    upstream. *)
Theorem C6_preflight
    {S : Type} (request : Request) (env : Env S) (w : World S) :
  method request = "OPTIONS" ->
  fetch request env w =
    (Returned
       {| status := 204;
          headers :=
            [ ("Content-Type", "application/json");
              ("Access-Control-Allow-Origin", "*");
              ("Access-Control-Allow-Methods", "POST, OPTIONS");
              ("Access-Control-Allow-Headers", "Content-Type");
              ("Access-Control-Max-Age", "86400") ];
          body := NoBody |},
     w) /\
  kv_events w (snd (fetch request env w)) = [].
Proof.
  intros Hm. unfold fetch. rewrite Hm. simpl. split; [reflexivity |].
  unfold kv_events, ret. simpl. rewrite events_since_refl. reflexivity.
Qed.

Example C6_preflight_example :
  let request := {| method := "OPTIONS"; req_headers := from_ip "1.2.3.4";
                    req_json := None |} in
  let w := world_with "ratelimit:1.2.3.4"
             {| count := 50; resetAt := 1700000100 |} 1700000100 upstream_hello in
  fetch request env_mem w =
    (Returned
       {| status := 204;
          headers :=
            [ ("Content-Type", "application/json");
              ("Access-Control-Allow-Origin", "*");
              ("Access-Control-Allow-Methods", "POST, OPTIONS");
              ("Access-Control-Allow-Headers", "Content-Type");
              ("Access-Control-Max-Age", "86400") ];
          body := NoBody |},
     w) /\
  kv_events w (snd (fetch request env_mem w)) = [].
Proof.
  intros request w. apply (C6_preflight request env_mem w). reflexivity.
Defined.

(** C7, as stated, fails: a GET request is answered 405 with the text
    [Method not allowed] as its body, not with an empty body. *)
Lemma C7_body_counterexample :
  ~ answered_without_body 405
      {| method := "GET"; req_headers := []; req_json := None |}
      env_mem (world0 upstream_hello).
Proof.
  intros (resp & w' & Hrun & _ & Hbody).
  injection Hrun as <- _. discriminate Hbody.
Qed.

(** C7, amended. A request whose method is neither OPTIONS nor POST is
    answered 405 with the plain text [Method not allowed] as its body
    and no headers set by the worker; the world is left as it was. *)
Theorem C7_method_not_allowed
    {S : Type} (request : Request) (env : Env S) (w : World S) :
  method request <> "OPTIONS" ->
  method request <> "POST" ->
  fetch request env w =
    (Returned {| status := 405; headers := [];
                 body := TextBody "Method not allowed" |},
     w).
Proof.
  intros Hopt Hpost. unfold fetch.
  destruct (String.eqb_spec (method request) "OPTIONS") as [E|_]; [contradiction |].
  destruct (String.eqb_spec (method request) "POST") as [E|_]; [contradiction |].
  reflexivity.
Qed.

Example C7_delete_example :
  let request := {| method := "DELETE"; req_headers := []; req_json := None |} in
  fetch request env_mem (world0 upstream_hello) =
    (Returned {| status := 405; headers := [];
                 body := TextBody "Method not allowed" |},
     world0 upstream_hello).
Proof.
  intro request.
  apply (C7_method_not_allowed request env_mem (world0 upstream_hello));
    discriminate.
Defined.

(** ** The handler around the limiter *)

(** The limiter always returns; it keeps the clock and the upstream, and
    appends only console output and store calls on its own key. *)
Lemma checkRateLimit_run {S : Type} (env : Env S) (id : string) (w : World S) :
  exists rl s' d,
    checkRateLimit env id w =
      (Returned rl, mkWorld s' (w_clock w) (w_upstream w) (w_trace w ++ d)%list) /\
    forallb (limiter_event ("ratelimit:" +:+ id)) d = true.
Proof.
  limiter_unfold. unfold emit, set_store.
  destruct (RATE_LIMIT env) as [ns|]; simpl.
  - destruct (kv_get ns _ _ _) as [[rec|]|e]; simpl.
    + destruct (_ >? _)%Z; [| destruct (_ >=? _)%Z];
        try destruct (kv_put ns _ _ _ _ _); simpl;
        repeat rewrite <- app_assoc; simpl;
        do 3 eexists; (split; [reflexivity |]); simpl;
        rewrite ?String.eqb_refl; reflexivity.
    + destruct (kv_put ns _ _ _ _ _); simpl;
        repeat rewrite <- app_assoc; simpl;
        do 3 eexists; (split; [reflexivity |]); simpl;
        rewrite ?String.eqb_refl; reflexivity.
    + repeat rewrite <- app_assoc; simpl.
      do 3 eexists. split; [reflexivity |]. simpl.
      rewrite ?String.eqb_refl; reflexivity.
  - do 3 eexists. split; [reflexivity |]. reflexivity.
Qed.

Lemma limiter_no_upstream (key : string) (d : list Event) (req : UpstreamRequest) :
  forallb (limiter_event key) d = true -> ~ In (EvUpstream req) d.
Proof.
  intros Hd Hin. rewrite forallb_forall in Hd.
  specialize (Hd _ Hin). discriminate Hd.
Qed.

Ltac break_match :=
  match goal with
  | |- context [match ?x with _ => _ end] =>
      lazymatch x with
      | context [match _ with _ => _ end] => fail
      | _ => destruct x eqn:?
      end
  end.

(** Case analysis of a POST run: the limiter's part of the trace is [d],
    every later branch is exposed. *)
Ltac fetch_post_cases request env w rl s1 d Hd :=
  unfold try_catch, fetch_try, bind;
  destruct (checkRateLimit_run env (clientIP_of request) w)
    as (rl & s1 & d & -> & Hd);
  unfold request_json, response_json, response_text, lift, ret,
    global_fetch, console, emit;
  simpl;
  repeat (break_match; simpl);
  trace_norm.

Ltac upstream_event Hin Hd :=
  apply in_app_or in Hin; destruct Hin as [Hin | Hin];
  [ exfalso; eapply limiter_no_upstream; eauto
  | simpl in Hin;
    repeat (destruct Hin as [Hin | Hin]; try discriminate Hin);
    try contradiction ].

(** C5, as stated, fails: the handler reads the body of a non-success
    answer (for its log) before it builds the 503, and when that read
    fails the run ends in the catch block, which answers 500. *)
Lemma C5_unreadable_body_counterexample :
  ok {| up_status := 529; up_text := None; up_json := None |} = false /\
  fst (fetch (post (from_ip "1.2.3.4") (JObj [("prompt", JStr "Hello")]))
         env_mem
         (world0 (fun _ => Returned
                    {| up_status := 529; up_text := None; up_json := None |})))
    = Returned (error_response 500 "An unexpected error occurred") /\
  fst (fetch (post (from_ip "1.2.3.4") (JObj [("prompt", JStr "Hello")]))
         env_mem
         (world0 (fun _ => Returned
                    {| up_status := 529; up_text := None; up_json := None |})))
    <> Returned (error_response 503 "AI service temporarily unavailable").
Proof.
  split; [reflexivity |]. split; [vm_compute; reflexivity |].
  vm_compute. intros H. discriminate H.
Qed.

(** C5, amended. When the handler has called the upstream API and the
    answer to that call has a status outside 200-299: if the body of the
    answer can be read then, whatever it holds, the caller receives
    status 503 and exactly the body [{error: AI service temporarily
    unavailable}]; if the body cannot be read, the caller receives
    status 500 and the body [{error: An unexpected error occurred}].
    Neither response holds anything of the upstream answer. *)
Theorem C5_upstream_error_is_generic
    {S : Type} (request : Request) (env : Env S) (w : World S)
    (req : UpstreamRequest) (resp : UpstreamResponse) :
  In (EvUpstream req) (events_since w (snd (fetch request env w))) ->
  w_upstream w req = Returned resp ->
  up_status resp < 200 \/ 299 < up_status resp ->
  (forall errorText, up_text resp = Some errorText ->
     fst (fetch request env w) =
       Returned
         {| status := 503;
            headers := corsHeaders;
            body := JsonBody (JObj [("error", JStr "AI service temporarily unavailable")]) |}) /\
  (up_text resp = None ->
     fst (fetch request env w) =
       Returned
         {| status := 500;
            headers := corsHeaders;
            body := JsonBody (JObj [("error", JStr "An unexpected error occurred")]) |}).
Proof.
  intros Hin Hup Hst.
  assert (Hok : ok resp = false) by (unfold ok; lia).
  assert (Hmain :
    fst (fetch request env w) =
      Returned
        match up_text resp with
        | Some _ => error_response 503 "AI service temporarily unavailable"
        | None => error_response 500 "An unexpected error occurred"
        end).
  { revert Hin. unfold fetch.
    destruct (String.eqb (method request) "OPTIONS").
    { unfold ret; simpl. rewrite events_since_refl. intros []. }
    destruct (String.eqb (method request) "POST"); simpl.
    2:{ unfold ret; simpl. rewrite events_since_refl. intros []. }
    fetch_post_cases request env w rl s1 d Hd; intros Hin;
      try (exfalso; eapply limiter_no_upstream; eassumption);
      upstream_event Hin Hd;
      injection Hin as <-;
      match goal with
      | H : w_upstream w _ = _ |- _ =>
          rewrite Hup in H; try discriminate H; injection H as <-
      end;
      rewrite Hok in *; try discriminate; try reflexivity; congruence. }
  rewrite Hmain. split.
  - intros errorText ->. reflexivity.
  - intros ->. reflexivity.
Qed.

Example C5_overloaded_example :
  let request := post (from_ip "1.2.3.4") (JObj [("prompt", JStr "Hello")]) in
  fst (fetch request env_mem (world0 upstream_overloaded)) =
    Returned
      {| status := 503;
         headers := corsHeaders;
         body := JsonBody (JObj [("error", JStr "AI service temporarily unavailable")]) |}.
Proof.
  intro request.
  apply (proj1
           (C5_upstream_error_is_generic request env_mem (world0 upstream_overloaded)
              (upstream_request "sk-test" (JStr "You are a helpful AI assistant.")
                 (JStr "Hello"))
              {| up_status := 529; up_text := Some "upstream diagnostic detail";
                 up_json := Some (JObj [("error", JStr "overloaded_error")]) |}
              ltac:(vm_compute; right; right; left; reflexivity)
              eq_refl
              ltac:(right; vm_compute; reflexivity))
           "upstream diagnostic detail" eq_refl).
Defined.

(** ** Text extraction *)

Lemma get_prop_prop (v : JSValue) (k : string) :
  nullish v = false -> get_prop v k = Returned (prop v k).
Proof. unfold prop. destruct v; simpl; intros H; try discriminate H; reflexivity. Qed.

Lemma array_filter_total (p : JSValue -> Outcome bool) (q : JSValue -> bool)
    (l : list JSValue) :
  Forall (fun x => p x = Returned (q x)) l ->
  array_filter p l = Returned (List.filter q l).
Proof.
  induction 1 as [| x l Hx _ IH]; simpl; [reflexivity |].
  rewrite Hx, IH. simpl. destruct (q x); reflexivity.
Qed.

Lemma array_map_total (f : JSValue -> Outcome JSValue) (g : JSValue -> JSValue)
    (l : list JSValue) :
  Forall (fun x => f x = Returned (g x)) l ->
  array_map f l = Returned (map g l).
Proof.
  induction 1 as [| x l Hx _ IH]; simpl; [reflexivity |].
  rewrite Hx, IH. reflexivity.
Qed.

(** Joining strings: no conversion, no exception. *)
Lemma array_join_strings (sep : string) (l : list JSValue) :
  Forall (fun v => is_string v = true) l ->
  array_join sep l =
    Returned (String.concat sep
                (map (fun v => match v with JStr s => s | _ => EmptyString end) l)).
Proof.
  unfold array_join.
  induction 1 as [| x l Hx Hl IH]; [reflexivity |].
  destruct x; try discriminate Hx.
  destruct l as [| y l]; [reflexivity |].
  cbn [join_with] in IH |- *. cbn [join_elt ToString obind].
  rewrite IH. reflexivity.
Qed.

Lemma extract_text_filter (data : JSValue) (blocks : list JSValue) :
  get_prop data "content" = Returned (JArr blocks) ->
  Forall (fun b => nullish b = false) blocks ->
  extract_text data =
    array_join LF (map (fun b => prop b "text") (List.filter is_text_block blocks)).
Proof.
  intros Hc Hblocks. unfold extract_text. rewrite Hc. simpl.
  rewrite (array_filter_total _ is_text_block).
  2:{ eapply Forall_impl; [exact Hblocks |]. intros b Hb. simpl in Hb.
      rewrite (get_prop_prop b "type" Hb). reflexivity. }
  simpl.
  rewrite (array_map_total _ (fun b => prop b "text")).
  2:{ apply List.Forall_forall. intros b Hb. apply filter_In in Hb as [Hb _].
      rewrite List.Forall_forall in Hblocks. apply get_prop_prop. auto. }
  reflexivity.
Qed.

Lemma extract_text_blocks (data : JSValue) (blocks : list JSValue) :
  get_prop data "content" = Returned (JArr blocks) ->
  Forall (fun b => nullish b = false) blocks ->
  Forall (fun b => is_text_block b = true -> is_string (prop b "text") = true)
    blocks ->
  extract_text data = Returned (concat_text_blocks blocks).
Proof.
  intros Hc Hblocks Hstr.
  rewrite (extract_text_filter data blocks Hc Hblocks).
  rewrite array_join_strings.
  - rewrite map_map. reflexivity.
  - apply List.Forall_forall. intros v Hv.
    apply in_map_iff in Hv as (b & <- & Hb).
    apply filter_In in Hb as [Hb Ht].
    rewrite List.Forall_forall in Hstr. auto.
Qed.

(** C8, as stated, fails: a success whose JSON body has no content list
    makes the extraction throw, and the run ends in the catch block,
    which answers 500; no 200 is returned. *)
Lemma C8_missing_content_counterexample :
  ok {| up_status := 200; up_text := Some "{}"; up_json := Some (JObj []) |} = true /\
  fst (fetch (post (from_ip "1.2.3.4") (JObj [("prompt", JStr "Hello")]))
         env_mem
         (world0 (fun _ => Returned
                    {| up_status := 200; up_text := Some "{}";
                       up_json := Some (JObj []) |})))
    = Returned (error_response 500 "An unexpected error occurred") /\
  ~ (exists text,
       fst (fetch (post (from_ip "1.2.3.4") (JObj [("prompt", JStr "Hello")]))
              env_mem
              (world0 (fun _ => Returned
                         {| up_status := 200; up_text := Some "{}";
                            up_json := Some (JObj []) |})))
       = Returned
           {| status := 200;
              headers := corsHeaders;
              body := JsonBody (JObj [("response", JStr text)]) |}).
Proof.
  split; [reflexivity |]. split; [vm_compute; reflexivity |].
  intros (text & H). vm_compute in H. discriminate H.
Qed.

(** A [null] block, or a text field that [join] cannot print, ends in
    the catch block as well. *)
Example success_with_null_block_is_500 :
  fst (fetch (post (from_ip "1.2.3.4") (JObj [("prompt", JStr "Hello")]))
         env_mem
         (world0 (fun _ => Returned
                    {| up_status := 200; up_text := Some "(json)";
                       up_json := Some (JObj [("content", JArr [JNull])]) |})))
    = Returned (error_response 500 "An unexpected error occurred").
Proof. vm_compute. reflexivity. Qed.

Example success_with_unprintable_text_is_500 :
  fst (fetch (post (from_ip "1.2.3.4") (JObj [("prompt", JStr "Hello")]))
         env_mem
         (world0 (fun _ => Returned
                    {| up_status := 200; up_text := Some "(json)";
                       up_json :=
                         Some (JObj [("content",
                                 JArr [ JObj [("type", JStr "text");
                                              ("text", JObj [("toString", JNum 1)])] ])]) |})))
    = Returned (error_response 500 "An unexpected error occurred").
Proof. vm_compute. reflexivity. Qed.

(** C8, amended. When the handler has called the upstream API and the
    answer is a success (status 200-299) whose JSON body carries under
    [content] a list of blocks, none of them [null], in which the text
    field of every block typed [text] is a string, the caller receives
    status 200 and one field [response]: the text fields of exactly the
    blocks typed [text], in order, joined by newlines. *)
Theorem C8_text_blocks_joined
    {S : Type} (request : Request) (env : Env S) (w : World S)
    (req : UpstreamRequest) (resp : UpstreamResponse)
    (data : JSValue) (blocks : list JSValue) :
  In (EvUpstream req) (events_since w (snd (fetch request env w))) ->
  w_upstream w req = Returned resp ->
  200 <= up_status resp <= 299 ->
  up_json resp = Some data ->
  get_prop data "content" = Returned (JArr blocks) ->
  Forall (fun b => nullish b = false) blocks ->
  Forall (fun b => is_text_block b = true -> is_string (prop b "text") = true)
    blocks ->
  fst (fetch request env w) =
    Returned
      {| status := 200;
         headers := corsHeaders;
         body := JsonBody (JObj [("response", JStr (concat_text_blocks blocks))]) |}.
Proof.
  intros Hin Hup Hst Hjson Hcontent Hblocks Hstr.
  assert (Hok : ok resp = true) by (unfold ok; lia).
  pose proof (extract_text_blocks data blocks Hcontent Hblocks Hstr) as Htext.
  revert Hin. unfold fetch.
  destruct (String.eqb (method request) "OPTIONS").
  { unfold ret; simpl. rewrite events_since_refl. intros []. }
  destruct (String.eqb (method request) "POST"); simpl.
  2:{ unfold ret; simpl. rewrite events_since_refl. intros []. }
  fetch_post_cases request env w rl s1 d Hd; intros Hin;
    try (exfalso; eapply limiter_no_upstream; eassumption);
    upstream_event Hin Hd;
    injection Hin as <-;
    match goal with
    | H : w_upstream w _ = _ |- _ =>
        rewrite Hup in H; try discriminate H; injection H as <-
    end;
    rewrite Hok in *; try discriminate; congruence.
Qed.

Example C8_hello_world_example :
  let request := post (from_ip "1.2.3.4") (JObj [("prompt", JStr "Hello")]) in
  fst (fetch request env_mem (world0 upstream_hello)) =
    Returned
      {| status := 200;
         headers := corsHeaders;
         body := JsonBody (JObj [("response", JStr ("Hello" +:+ LF +:+ "world"))]) |}.
Proof.
  intro request.
  apply (C8_text_blocks_joined request env_mem (world0 upstream_hello)
           (upstream_request "sk-test" (JStr "You are a helpful AI assistant.")
              (JStr "Hello"))
           {| up_status := 200; up_text := Some "(json)";
              up_json := Some (JObj [("content",
                    JArr [ JObj [("type", JStr "text"); ("text", JStr "Hello")];
                           JObj [("type", JStr "tool_use"); ("id", JStr "t1")];
                           JObj [("type", JStr "text"); ("text", JStr "world")] ])]) |}
           (JObj [("content",
                    JArr [ JObj [("type", JStr "text"); ("text", JStr "Hello")];
                           JObj [("type", JStr "tool_use"); ("id", JStr "t1")];
                           JObj [("type", JStr "text"); ("text", JStr "world")] ])])
           [ JObj [("type", JStr "text"); ("text", JStr "Hello")];
             JObj [("type", JStr "tool_use"); ("id", JStr "t1")];
             JObj [("type", JStr "text"); ("text", JStr "world")] ]).
  - vm_compute. right. right. left. reflexivity.
  - reflexivity.
  - vm_compute. split; discriminate.
  - reflexivity.
  - reflexivity.
  - repeat constructor.
  - repeat (constructor;
            [vm_compute; intros H; first [reflexivity | discriminate H] |]).
    constructor.
Defined.

(** C2, as stated, fails: a POST whose body has no prompt at all is
    answered 400 only after the limiter has written the client's record. *)
Lemma C2_quota_counterexample :
  prompt_missing_or_invalid (JObj []) = true /\
  ~ rejected_untouched 400 (post (from_ip "1.2.3.4") (JObj []))
      env_mem (world0 upstream_hello).
Proof.
  split; [reflexivity |].
  unfold rejected_untouched.
  destruct (fetch _ _ _) as [r w'] eqn:E. vm_compute in E.
  injection E as <- <-.
  intros (_ & _ & Hput & _). vm_compute in Hput. discriminate Hput.
Qed.

(** C2, amended. A POST that the limiter lets through, whose JSON body is not
    [null] and in which [prompt || message] is falsy or not a string, is
    answered 400 with no upstream call; the limiter has run by then, and
    the world, quota store included, is the one the limiter left (the
    request has been counted). *)
Theorem C2_invalid_prompt_rejected
    {S : Type} (request : Request) (env : Env S) (w w1 : World S)
    (rl : RateLimitResult) (b : JSValue) :
  method request = "POST" ->
  checkRateLimit env (clientIP_of request) w = (Returned rl, w1) ->
  allowed rl = true ->
  req_json request = Some b ->
  nullish b = false ->
  truthy (js_or (prop b "prompt") (prop b "message")) = false \/
  is_string (js_or (prop b "prompt") (prop b "message")) = false ->
  fetch request env w =
    (Returned (error_response 400 "Invalid request: prompt is required"), w1) /\
  existsb is_upstream (events_since w w1) = false.
Proof.
  intros Hm Hrl Hallowed Hjson Hb Hbad. split.
  - unfold fetch, try_catch, fetch_try, bind, request_json, lift, ret.
    rewrite Hm. cbv beta iota zeta delta [String.eqb Ascii.eqb Bool.eqb negb].
    rewrite Hrl, Hallowed, Hjson. simpl.
    rewrite (get_prop_prop b "prompt" Hb), (get_prop_prop b "message" Hb).
    unfold js_or in Hbad.
    destruct (truthy (prop b "prompt")) eqn:Hp.
    + destruct Hbad as [Hbad | Hbad]; [congruence |].
      rewrite Hbad, Hp. reflexivity.
    + destruct Hbad as [-> | ->]; simpl; [reflexivity |].
      rewrite orb_true_r. reflexivity.
  - destruct (checkRateLimit_run env (clientIP_of request) w)
      as (rl' & s1 & d & Hrun & Hd).
    rewrite Hrun in Hrl. injection Hrl as _ <-.
    trace_norm.
    destruct (existsb is_upstream d) eqn:Hex; [| reflexivity].
    apply existsb_exists in Hex as (e & Hin & He).
    destruct e; try discriminate He.
    exfalso. eapply limiter_no_upstream; eauto.
Qed.

Example C2_empty_body_example :
  let request := post (from_ip "1.2.3.4") (JObj []) in
  let w := world0 upstream_hello in
  fetch request env_mem w =
    (Returned (error_response 400 "Invalid request: prompt is required"),
     snd (checkRateLimit env_mem "1.2.3.4" w)) /\
  existsb is_upstream (events_since w (snd (checkRateLimit env_mem "1.2.3.4" w))) = false.
Proof.
  intros request w.
  apply (C2_invalid_prompt_rejected request env_mem w
           (snd (checkRateLimit env_mem "1.2.3.4" w))
           {| allowed := true; remaining := 49 |} (JObj [])).
  - reflexivity.
  - vm_compute. reflexivity.
  - reflexivity.
  - reflexivity.
  - reflexivity.
  - left. reflexivity.
Defined.



(** ** The handler touches the store only through the limiter *)

Lemma fetch_post_split {S : Type} (request : Request) (env : Env S) (w : World S) :
  method request = "POST" ->
  exists d2,
    events_since w (snd (fetch request env w)) =
      (events_since w (snd (checkRateLimit env (clientIP_of request) w)) ++ d2)%list /\
    forallb (fun e => negb (is_kv_event e)) d2 = true /\
    w_store (snd (fetch request env w)) =
      w_store (snd (checkRateLimit env (clientIP_of request) w)) /\
    w_trace (snd (fetch request env w)) =
      (w_trace w ++ events_since w (snd (fetch request env w)))%list.
Proof.
  intros Hm. unfold fetch. rewrite Hm.
  cbv beta iota zeta delta [String.eqb Ascii.eqb Bool.eqb negb].
  fetch_post_cases request env w rl s1 d Hd;
    try (exists []; rewrite app_nil_r; repeat split; reflexivity);
    eexists; repeat split; reflexivity.
Qed.

Lemma fetch_other_world {S : Type} (request : Request) (env : Env S) (w : World S) :
  method request <> "POST" -> snd (fetch request env w) = w.
Proof.
  intros Hm. unfold fetch.
  destruct (String.eqb (method request) "OPTIONS"); [reflexivity |].
  destruct (String.eqb_spec (method request) "POST"); [contradiction | reflexivity].
Qed.

Lemma limiter_puts_bounded {S : Type} (ns : KVNamespace S) (env : Env S)
    (id : string) (w : World S) :
  RATE_LIMIT env = Some ns ->
  (forall rec, kv_get ns ("ratelimit:" +:+ id) (w_clock w) (w_store w)
                 = Returned (Some rec) -> 0 <= count rec) ->
  forall k v ttl failed,
    In (EvKvPut k v ttl failed) (events_since w (snd (checkRateLimit env id w))) ->
    1 <= count v <= RATE_LIMIT_REQUESTS.
Proof.
  intros Hns Hpos k v ttl failed.
  limiter_unfold. rewrite Hns. simpl.
  destruct (kv_get ns _ _ _) as [[rec|]|e] eqn:Hget; simpl.
  - specialize (Hpos rec eq_refl).
    destruct (_ >? _)%Z eqn:Hgt; [| destruct (_ >=? _)%Z eqn:Hge];
      try destruct (kv_put ns _ _ _ _ _); trace_norm;
      intros Hin; repeat (destruct Hin as [Hin | Hin]; try discriminate Hin);
      try contradiction; injection Hin as _ <- _ _; simpl;
      unfold RATE_LIMIT_REQUESTS in *; lia.
  - destruct (kv_put ns _ _ _ _ _); trace_norm;
      intros Hin; repeat (destruct Hin as [Hin | Hin]; try discriminate Hin);
      try contradiction; injection Hin as _ <- _ _; simpl;
      unfold RATE_LIMIT_REQUESTS; lia.
  - trace_norm. intros Hin.
    repeat (destruct Hin as [Hin | Hin]; try discriminate Hin). contradiction.
Qed.

(** ** The in-memory store under a sequence of requests *)

Lemma store_bounded_insert (s : gmap string StoredEntry) (key : string)
    (v : RateLimitRecord) (expires : Z) :
  store_bounded s ->
  1 <= count v <= RATE_LIMIT_REQUESTS ->
  store_bounded (<[key := mkEntry v expires]> s).
Proof.
  intros Hs Hv key' e'.
  destruct (decide (key = key')) as [<- | Hne].
  - rewrite lookup_insert_eq. intros [= <-]. exact Hv.
  - rewrite lookup_insert_ne by assumption. apply Hs.
Qed.

Lemma mem_get_Some (key : string) (clock : Z) (s : gmap string StoredEntry)
    (rec : RateLimitRecord) :
  mem_get key clock s = Returned (Some rec) ->
  exists e, s !! key = Some e /\ entry_value e = rec /\ clock / 1000 < entry_expires e.
Proof.
  unfold mem_get. destruct (s !! key) as [e|]; [| discriminate].
  destruct (_ <? _)%Z eqn:Hlive; [| discriminate].
  intros [= <-]. exists e. repeat split. lia.
Qed.

Section MemStore.

Context (m : Z) (apiKey : option string).

Local Abbreviation env := (mem_env m apiKey).

Lemma mem_read_nonneg (id : string) (w : World (gmap string StoredEntry)) :
  store_bounded (w_store w) ->
  forall rec,
    kv_get (MemKV m) ("ratelimit:" +:+ id) (w_clock w) (w_store w)
      = Returned (Some rec) -> 0 <= count rec.
Proof.
  intros Hs rec Hget. apply mem_get_Some in Hget as (e & He & <- & _).
  specialize (Hs _ _ He). lia.
Qed.

Lemma limiter_mem_bounded (id : string) (w : World (gmap string StoredEntry)) :
  store_bounded (w_store w) ->
  store_bounded (w_store (snd (checkRateLimit env id w))).
Proof.
  intros Hs. unfold mem_env. limiter_unfold.
  cbn [RATE_LIMIT kv_get kv_put MemKV].
  destruct (mem_get _ _ _) as [[rec|]|e] eqn:Hget; simpl.
  - apply mem_get_Some in Hget as (e & He & <- & _).
    pose proof (Hs _ _ He) as Hc.
    destruct (_ >? _)%Z; [| destruct (_ >=? _)%Z eqn:Hge];
      unfold mem_put; try destruct (_ <? m)%Z; simpl; try exact Hs;
      apply store_bounded_insert; try exact Hs; simpl;
      unfold RATE_LIMIT_REQUESTS in *; lia.
  - unfold mem_put. destruct (_ <? m)%Z; simpl; try exact Hs.
    apply store_bounded_insert; try exact Hs; simpl.
    unfold RATE_LIMIT_REQUESTS; lia.
  - exact Hs.
Qed.

Lemma fetch_mem_step (request : Request) (w : World (gmap string StoredEntry)) :
  store_bounded (w_store w) ->
  store_bounded (w_store (snd (fetch request env w))) /\
  exists d,
    w_trace (snd (fetch request env w)) = (w_trace w ++ d)%list /\
    forall k v ttl failed, In (EvKvPut k v ttl failed) d ->
      1 <= count v <= RATE_LIMIT_REQUESTS.
Proof.
  intros Hs.
  destruct (String.eqb_spec (method request) "POST") as [Hm | Hm].
  - destruct (fetch_post_split request env w Hm) as (d2 & Hev & Hd2 & Hst & Htr).
    split.
    + rewrite Hst. apply limiter_mem_bounded, Hs.
    + eexists. split; [exact Htr |].
      intros k v ttl failed Hin. rewrite Hev in Hin.
      apply in_app_or in Hin as [Hin | Hin].
      * eapply (limiter_puts_bounded (MemKV m) env); eauto.
        apply mem_read_nonneg, Hs.
      * rewrite forallb_forall in Hd2. specialize (Hd2 _ Hin). discriminate Hd2.
  - rewrite (fetch_other_world request env w Hm). split; [exact Hs |].
    exists []. split; [symmetry; apply app_nil_r | intros ? ? ? ? []].
Qed.

Lemma serve_mem_bounded (reqs : list (Z * Request))
    (w : World (gmap string StoredEntry)) :
  store_bounded (w_store w) ->
  store_bounded (w_store (snd (serve env reqs w))) /\
  exists d,
    w_trace (snd (serve env reqs w)) = (w_trace w ++ d)%list /\
    forall k v ttl failed, In (EvKvPut k v ttl failed) d ->
      1 <= count v <= RATE_LIMIT_REQUESTS.
Proof.
  revert w. induction reqs as [| [t request] reqs IH]; intros w Hs; simpl.
  - split; [exact Hs |]. exists []. split; [symmetry; apply app_nil_r | intros ? ? ? ? []].
  - destruct (fetch_mem_step request (at_clock t w) Hs) as (Hs1 & d1 & Ht1 & Hd1).
    destruct (fetch request env (at_clock t w)) as [r w1]. simpl in *.
    destruct (IH w1 Hs1) as (Hs2 & d2 & Ht2 & Hd2).
    destruct (serve env reqs w1) as [rs w2]. simpl in *.
    split; [exact Hs2 |].
    exists (d1 ++ d2)%list. split.
    + rewrite Ht2, Ht1. symmetry. apply app_assoc.
    + intros k v ttl failed Hin. apply in_app_or in Hin as [Hin | Hin]; eauto.
Qed.

Lemma mem_full_rejected (request : Request) (w : World (gmap string StoredEntry))
    (rec : RateLimitRecord) (expires : Z) :
  method request = "POST" ->
  w_store w !! ("ratelimit:" +:+ clientIP_of request) = Some (mkEntry rec expires) ->
  now_of w < expires ->
  now_of w <= resetAt rec ->
  count rec >= RATE_LIMIT_REQUESTS ->
  fetch request env w =
    (Returned (error_response 429 "Rate limit exceeded. Please try again later."),
     emit (EvKvGet ("ratelimit:" +:+ clientIP_of request) false) w).
Proof.
  intros Hm Hrec Hlive Hwin Hfull.
  unfold now_of in *.
  unfold fetch. rewrite Hm.
  cbv beta iota zeta delta [String.eqb Ascii.eqb Bool.eqb negb].
  unfold try_catch, fetch_try, bind, mem_env. limiter_unfold.
  cbn [RATE_LIMIT kv_get kv_put MemKV]. unfold mem_get. rewrite Hrec.
  cbn [entry_value entry_expires].
  assert (H1 : (w_clock w / 1000 <? expires)%Z = true) by lia.
  assert (H2 : (w_clock w / 1000 >? resetAt rec)%Z = false) by lia.
  assert (H3 : (count rec >=? RATE_LIMIT_REQUESTS)%Z = true) by lia.
  rewrite H1. cbn [w_clock w_store emit]. rewrite H2, H3. reflexivity.
Qed.

End MemStore.

Lemma store_bounded_empty : store_bounded ∅.
Proof. intros key e H. rewrite lookup_empty in H. discriminate H. Qed.

(** C3. On the in-memory store, the bound [1 <= count <= LIMIT] on every
    stored record is an invariant of serving requests: any sequence of
    requests, at any times, keeps it, and every write made on the way
    stores a count between 1 and the ceiling.  A POST that finds its
    client's live record at the ceiling inside the window is answered
    429 after the lookup alone, so the stored record is unchanged. *)
Theorem C3_count_within_ceiling
    (m : Z) (apiKey : option string) (reqs : list (Z * Request))
    (w : World (gmap string StoredEntry)) :
  store_bounded (w_store w) ->
  store_bounded (w_store (snd (serve (mem_env m apiKey) reqs w))) /\
  (forall k v ttl failed,
     In (EvKvPut k v ttl failed)
        (events_since w (snd (serve (mem_env m apiKey) reqs w))) ->
     1 <= count v <= RATE_LIMIT_REQUESTS) /\
  (forall request rec expires,
     method request = "POST" ->
     w_store w !! ("ratelimit:" +:+ clientIP_of request) = Some (mkEntry rec expires) ->
     now_of w < expires ->
     now_of w <= resetAt rec ->
     count rec >= RATE_LIMIT_REQUESTS ->
     fetch request (mem_env m apiKey) w =
       (Returned (error_response 429 "Rate limit exceeded. Please try again later."),
        emit (EvKvGet ("ratelimit:" +:+ clientIP_of request) false) w)).
Proof.
  intros Hs.
  destruct (serve_mem_bounded m apiKey reqs w Hs) as (Hs' & d & Htr & Hd).
  split; [exact Hs' |]. split.
  - intros k v ttl failed Hin.
    rewrite (events_since_app _ _ _ Htr) in Hin. eauto.
  - intros request rec expires. apply mem_full_rejected.
Qed.

Example C3_three_requests_example :
  let reqs :=
    [ (1700000000000, post (from_ip "1.2.3.4") (JObj [("prompt", JStr "Hello")]));
      (1700000001000, post (from_ip "1.2.3.4") (JObj []));
      (1700003700000, post [] (JObj [("message", JStr "hi")])) ] in
  store_bounded (w_store (snd (serve env_mem reqs (world0 upstream_hello)))).
Proof.
  intro reqs.
  exact (proj1 (C3_count_within_ceiling 60 (Some "sk-test") reqs
                  (world0 upstream_hello) store_bounded_empty)).
Defined.

(** ** Clients without an address *)

Lemma limiter_events_keyed {S : Type} (env : Env S) (id : string) (w : World S)
    (e : Event) (k : string) :
  In e (events_since w (snd (checkRateLimit env id w))) ->
  event_key e = Some k ->
  k = "ratelimit:" +:+ id.
Proof.
  destruct (checkRateLimit_run env id w) as (rl & s1 & d & -> & Hd).
  trace_norm. intros Hin Hk.
  rewrite forallb_forall in Hd. specialize (Hd _ Hin).
  destruct e; simpl in *; try discriminate Hk;
    injection Hk as <-; apply String.eqb_eq in Hd; exact Hd.
Qed.

Lemma filter_none (d : list Event) :
  forallb (fun e => negb (is_kv_event e)) d = true ->
  List.filter is_kv_event d = [].
Proof.
  induction d as [| e d IH]; simpl; [reflexivity |].
  intros H. apply andb_true_iff in H as [He Hd].
  destruct (is_kv_event e); [discriminate He | auto].
Qed.

(** C9. A request without the CF-Connecting-IP header is given the
    client identifier [unknown]: every store call of its run is on the
    key [ratelimit:unknown], and a POST makes exactly the store calls,
    and leaves the store exactly as, the limiter does for the client
    [unknown], whoever sent it.  All such requests therefore read and
    advance one record. *)
Theorem C9_unknown_clients_share_record
    {S : Type} (request : Request) (env : Env S) (w : World S) :
  Headers_get (req_headers request) "CF-Connecting-IP" = None ->
  clientIP_of request = "unknown" /\
  (forall e k,
     In e (events_since w (snd (fetch request env w))) ->
     event_key e = Some k -> k = "ratelimit:unknown") /\
  (method request = "POST" ->
     kv_events w (snd (fetch request env w)) =
       kv_events w (snd (checkRateLimit env "unknown" w)) /\
     w_store (snd (fetch request env w)) =
       w_store (snd (checkRateLimit env "unknown" w))).
Proof.
  intros Hnone.
  assert (Hid : clientIP_of request = "unknown")
    by (unfold clientIP_of; rewrite Hnone; reflexivity).
  split; [exact Hid |]. split.
  - intros e k Hin Hk.
    destruct (String.eqb_spec (method request) "POST") as [Hm | Hm].
    + destruct (fetch_post_split request env w Hm) as (d2 & Hev & Hd2 & _ & _).
      rewrite Hev, Hid in Hin. apply in_app_or in Hin as [Hin | Hin].
      * exact (limiter_events_keyed env "unknown" w e k Hin Hk).
      * rewrite forallb_forall in Hd2. specialize (Hd2 _ Hin).
        destruct e; simpl in *; discriminate.
    + rewrite (fetch_other_world request env w Hm), events_since_refl in Hin.
      destruct Hin.
  - intros Hm.
    destruct (fetch_post_split request env w Hm) as (d2 & Hev & Hd2 & Hst & _).
    rewrite Hid in *. split; [| exact Hst].
    unfold kv_events. rewrite Hev, List.filter_app, (filter_none d2 Hd2).
    apply app_nil_r.
Qed.

Example C9_no_header_example :
  let request := post [("Content-Type", "application/json")]
                   (JObj [("message", JStr "hi")]) in
  let w := world0 upstream_hello in
  kv_events w (snd (fetch request env_mem w)) =
    [ EvKvGet "ratelimit:unknown" false;
      EvKvPut "ratelimit:unknown" {| count := 1; resetAt := 1700003600 |}
        3600 false ].
Proof.
  intros request w.
  destruct (C9_unknown_clients_share_record request env_mem w eq_refl)
    as (_ & _ & H).
  destruct (H eq_refl) as [Hev _].
  rewrite Hev. vm_compute. reflexivity.
Defined.

(** The common quota at work: from an empty store, once fifty POSTs
    without the header have been served at one instant, whoever sent
    them, the next one is turned away. *)

Lemma headerless_post_store {S : Type} (request : Request) (env : Env S)
    (w : World S) :
  headerless_post request ->
  w_store (snd (fetch request env w)) =
    w_store (snd (checkRateLimit env "unknown" w)).
Proof.
  intros [Hm Hh].
  destruct (fetch_post_split request env w Hm) as (d2 & _ & _ & Hst & _).
  rewrite Hst. unfold clientIP_of. rewrite Hh. reflexivity.
Qed.

Section CommonQuota.

Context (t : Z) (apiKey : option string).

Local Abbreviation env := (mem_env 60 apiKey).
Local Abbreviation shared := (shared_store t).


Lemma limiter_first (w : World (gmap string StoredEntry)) :
  w_store w = ∅ -> w_clock w = t ->
  w_store (snd (checkRateLimit env "unknown" w)) = shared 1.
Proof.
  intros Hs Hc. unfold mem_env, shared_store. limiter_unfold.
  cbn [RATE_LIMIT kv_get kv_put MemKV]. unfold mem_get, mem_put.
  change ("ratelimit:" +:+ "unknown") with "ratelimit:unknown".
  rewrite Hs, Hc, lookup_empty. cbn. rewrite Hs, Hc.
  unfold RATE_LIMIT_WINDOW. reflexivity.
Qed.

Lemma limiter_next (c : Z) (w : World (gmap string StoredEntry)) :
  w_store w = shared c -> w_clock w = t ->
  c < RATE_LIMIT_REQUESTS ->
  w_store (snd (checkRateLimit env "unknown" w)) = shared (c + 1).
Proof.
  intros Hs Hc Hroom. unfold mem_env, shared_store in *. limiter_unfold.
  cbn [RATE_LIMIT kv_get kv_put MemKV]. unfold mem_get, mem_put.
  change ("ratelimit:" +:+ "unknown") with "ratelimit:unknown".
  rewrite Hs, Hc, lookup_singleton_eq.
  cbn [entry_value entry_expires count resetAt].
  assert (H1 : (t / 1000 <? t / 1000 + RATE_LIMIT_WINDOW)%Z = true)
    by (unfold RATE_LIMIT_WINDOW; lia).
  assert (H2 : (t / 1000 >? t / 1000 + RATE_LIMIT_WINDOW)%Z = false)
    by (unfold RATE_LIMIT_WINDOW; lia).
  assert (H3 : (c >=? RATE_LIMIT_REQUESTS)%Z = false) by lia.
  assert (H4 : (t / 1000 + RATE_LIMIT_WINDOW - t / 1000 <? 60)%Z = false)
    by (unfold RATE_LIMIT_WINDOW; lia).
  rewrite H1. cbn [w_clock w_store emit count resetAt]. rewrite H2, H3, H4.
  cbn [w_clock w_store emit]. rewrite Hc, Hs.
  cbn [snd w_store emit set_store]. rewrite insert_singleton_eq.
  do 3 f_equal. lia.
Qed.

Lemma serve_shared (reqs : list (Z * Request)) (c : Z)
    (w : World (gmap string StoredEntry)) :
  w_store w = shared c ->
  c + Z.of_nat (length reqs) <= RATE_LIMIT_REQUESTS ->
  Forall (fun tr => fst tr = t /\ headerless_post (snd tr)) reqs ->
  w_store (snd (serve env reqs w)) = shared (c + Z.of_nat (length reqs)).
Proof.
  revert c w. induction reqs as [| [t' request] reqs IH]; intros c w Hs Hlen Hall.
  - simpl. rewrite Z.add_0_r. exact Hs.
  - apply Forall_cons_1 in Hall as [[Ht [Hm Hh]] Hall]. simpl in Ht, Hm, Hh.
    subst t'. cbn [serve length] in *.
    assert (Hstep : w_store (snd (fetch request env (at_clock t w))) = shared (c + 1)).
    { rewrite (headerless_post_store request env (at_clock t w) (conj Hm Hh)).
      apply limiter_next; [exact Hs | reflexivity | lia]. }
    destruct (fetch request env (at_clock t w)) as [r w1]. simpl in Hstep.
    specialize (IH (c + 1) w1 Hstep ltac:(lia) Hall).
    destruct (serve env reqs w1) as [rs w2]. simpl in *.
    rewrite IH. f_equal. lia.
Qed.

Lemma unknown_clients_exhaust_quota
    (up : UpstreamRequest -> Outcome UpstreamResponse)
    (reqs : list (Z * Request)) (last : Request) :
  length reqs = 50%nat ->
  Forall (fun tr => fst tr = t /\ headerless_post (snd tr)) reqs ->
  headerless_post last ->
  fst (fetch last env (at_clock t (snd (serve env reqs (mkWorld ∅ t up [])))))
    = Returned (error_response 429 "Rate limit exceeded. Please try again later.").
Proof.
  intros Hlen Hall [Hm Hh].
  destruct reqs as [| [t' first] rest]; [discriminate Hlen |].
  apply Forall_cons_1 in Hall as [[Ht Hfirst] Hall]. simpl in Ht, Hfirst. subst t'.
  injection Hlen as Hlen.
  assert (H1 : w_store (snd (fetch first env (at_clock t (mkWorld ∅ t up [])))) = shared 1).
  { rewrite (headerless_post_store first env _ Hfirst).
    apply limiter_first; reflexivity. }
  cbn [serve].
  destruct (fetch first env (at_clock t (mkWorld ∅ t up []))) as [r w1]. simpl in H1.
  pose proof (serve_shared rest 1 w1 H1) as Hrest.
  rewrite Hlen in Hrest.
  specialize (Hrest ltac:(unfold RATE_LIMIT_REQUESTS; lia) Hall).
  destruct (serve env rest w1) as [rs w2]. simpl in Hrest. cbn [snd].
  assert (Hid : clientIP_of last = "unknown")
    by (unfold clientIP_of; rewrite Hh; reflexivity).
  rewrite (mem_full_rejected 60 apiKey last (at_clock t w2)
             {| count := 50; resetAt := t / 1000 + RATE_LIMIT_WINDOW |}
             (t / 1000 + RATE_LIMIT_WINDOW) Hm).
  - reflexivity.
  - rewrite Hid. cbn [at_clock w_store]. rewrite Hrest.
    unfold shared_store. apply lookup_singleton_eq.
  - unfold now_of, RATE_LIMIT_WINDOW. simpl. lia.
  - unfold now_of, RATE_LIMIT_WINDOW. simpl. lia.
  - unfold RATE_LIMIT_REQUESTS. simpl. lia.
Qed.

End CommonQuota.

(** * Further properties of the worker *)

(** X1. The handler always answers, and with one of eight shapes: the
    pre-flight answer, the plain 405, one of five fixed JSON errors, or
    200 with a [response] string.  No exception leaves [fetch], and no
    error body depends on the request, the upstream or the exception. *)
Theorem X1_fetch_answers_in_fixed_shapes
    {S : Type} (request : Request) (env : Env S) (w : World S) :
  exists r,
    fst (fetch request env w) = Returned r /\
    (r = handleCORS \/
     r = {| status := 405; headers := []; body := TextBody "Method not allowed" |} \/
     r = error_response 429 "Rate limit exceeded. Please try again later." \/
     r = error_response 400 "Invalid request: prompt is required" \/
     r = error_response 500 "Service configuration error" \/
     r = error_response 503 "AI service temporarily unavailable" \/
     r = error_response 500 "An unexpected error occurred" \/
     exists text,
       r = {| status := 200; headers := corsHeaders;
              body := JsonBody (JObj [("response", JStr text)]) |}).
Proof.
  unfold fetch.
  destruct (String.eqb (method request) "OPTIONS").
  { eexists. split; [reflexivity |]. auto. }
  destruct (String.eqb (method request) "POST"); simpl.
  2:{ eexists. split; [reflexivity |]. auto. }
  fetch_post_cases request env w rl s1 d Hd;
    (eexists; split; [reflexivity |]);
    repeat (first [left; reflexivity | right]);
    eexists; reflexivity.
Qed.

Lemma limiter_filter_upstream (key : string) (d : list Event) :
  forallb (limiter_event key) d = true -> List.filter is_upstream d = [].
Proof.
  induction d as [| e d IH]; simpl; [reflexivity |].
  intros H. apply andb_true_iff in H as [He Hd].
  destruct e; simpl in *; try discriminate He; auto.
Qed.

(** The store calls of one limiter run: nothing, the lookup alone, or
    the lookup followed by one write, all on the client's key. *)
Lemma limiter_kv_shape {S : Type} (env : Env S) (id : string) (w : World S) :
  let key := "ratelimit:" +:+ id in
  let ev := kv_events w (snd (checkRateLimit env id w)) in
  ev = [] \/
  (exists failed, ev = [EvKvGet key failed]) \/
  (exists v ttl failed, ev = [EvKvGet key false; EvKvPut key v ttl failed]).
Proof.
  cbv zeta. limiter_unfold.
  destruct (RATE_LIMIT env) as [ns|]; simpl.
  - destruct (kv_get ns _ _ _) as [[rec|]|e]; simpl.
    + destruct (_ >? _)%Z; [| destruct (_ >=? _)%Z];
        try destruct (kv_put ns _ _ _ _ _); trace_norm; eauto 8.
    + destruct (kv_put ns _ _ _ _ _); trace_norm; eauto 8.
    + trace_norm. eauto.
  - trace_norm. auto.
Qed.

(** X2. One request makes at most one lookup and at most one write on
    the quota store, both on the client's own key and in that order,
    and at most one upstream call. *)
Theorem X2_side_effects_per_request
    {S : Type} (request : Request) (env : Env S) (w : World S) :
  let key := "ratelimit:" +:+ clientIP_of request in
  let ev := events_since w (snd (fetch request env w)) in
  (List.filter is_kv_event ev = [] \/
   (exists failed, List.filter is_kv_event ev = [EvKvGet key failed]) \/
   (exists v ttl failed,
      List.filter is_kv_event ev = [EvKvGet key false; EvKvPut key v ttl failed])) /\
  (length (List.filter is_upstream ev) <= 1)%nat.
Proof.
  cbv zeta.
  destruct (String.eqb_spec (method request) "POST") as [Hm | Hm].
  - split.
    + destruct (fetch_post_split request env w Hm) as (d2 & Hev & Hd2 & _ & _).
      rewrite Hev, List.filter_app, (filter_none d2 Hd2), app_nil_r.
      apply limiter_kv_shape.
    + unfold fetch. rewrite Hm.
      cbv beta iota zeta delta [String.eqb Ascii.eqb Bool.eqb negb].
      fetch_post_cases request env w rl s1 d Hd;
        rewrite ?List.filter_app, (limiter_filter_upstream _ d Hd); simpl; lia.
  - rewrite (fetch_other_world request env w Hm), events_since_refl.
    simpl. split; [auto | lia].
Qed.

(** X3. When the limiter turns a POST away, the answer is 429 with the
    fixed message, whatever the body is (it is never read, so even a
    body that is not JSON gets 429) and without an upstream call: the
    world is the one the limiter left. *)
Theorem X3_rate_limited_before_body
    {S : Type} (request : Request) (env : Env S) (w w1 : World S)
    (rl : RateLimitResult) :
  method request = "POST" ->
  checkRateLimit env (clientIP_of request) w = (Returned rl, w1) ->
  allowed rl = false ->
  fetch request env w =
    (Returned (error_response 429 "Rate limit exceeded. Please try again later."),
     w1).
Proof.
  intros Hm Hrl Hno. unfold fetch, try_catch, fetch_try, bind, ret.
  rewrite Hm.
  cbv beta iota zeta delta [String.eqb Ascii.eqb Bool.eqb negb].
  rewrite Hrl, Hno. reflexivity.
Qed.

Example X3_full_record_example :
  let request :=
    {| method := "POST"; req_headers := from_ip "1.2.3.4"; req_json := None |} in
  let w := world_with "ratelimit:1.2.3.4"
             {| count := 50; resetAt := 1700000100 |} 1700000100 upstream_hello in
  fetch request env_mem w =
    (Returned (error_response 429 "Rate limit exceeded. Please try again later."),
     emit (EvKvGet "ratelimit:1.2.3.4" false) w).
Proof.
  intros request w.
  apply (X3_rate_limited_before_body request env_mem w
           (emit (EvKvGet "ratelimit:1.2.3.4" false) w)
           {| allowed := false; remaining := 0 |});
    reflexivity.
Defined.

(** X4. With the API key unset or empty, a valid POST that passed the
    limiter is answered 500 [Service configuration error]; the key's
    absence is logged and the upstream is not called. *)
Theorem X4_missing_api_key
    {S : Type} (request : Request) (env : Env S) (w w1 : World S)
    (rl : RateLimitResult) (b : JSValue) :
  method request = "POST" ->
  checkRateLimit env (clientIP_of request) w = (Returned rl, w1) ->
  allowed rl = true ->
  req_json request = Some b ->
  nullish b = false ->
  truthy (js_or (prop b "prompt") (prop b "message")) = true ->
  is_string (js_or (prop b "prompt") (prop b "message")) = true ->
  ANTHROPIC_API_KEY env = None \/ ANTHROPIC_API_KEY env = Some EmptyString ->
  fetch request env w =
    (Returned (error_response 500 "Service configuration error"),
     emit (EvConsole ErrorLevel "ANTHROPIC_API_KEY not configured") w1).
Proof.
  intros Hm Hrl Hallowed Hjson Hb Ht Hs Hkey.
  assert (Hk : apiKey_of env = None)
    by (unfold apiKey_of; destruct Hkey as [-> | ->]; reflexivity).
  unfold fetch, try_catch, fetch_try, bind, request_json, lift, ret, console.
  rewrite Hm.
  cbv beta iota zeta delta [String.eqb Ascii.eqb Bool.eqb negb].
  rewrite Hrl, Hallowed, Hjson. simpl.
  rewrite (get_prop_prop b "prompt" Hb), (get_prop_prop b "message" Hb).
  unfold js_or in Ht, Hs.
  destruct (truthy (prop b "prompt")) eqn:Hp.
  - rewrite Hp, Hs, Hk. reflexivity.
  - rewrite Ht, Hs, Hk. reflexivity.
Qed.

Example X4_empty_key_example :
  let request := post (from_ip "1.2.3.4") (JObj [("prompt", JStr "Hello")]) in
  let env := mem_env 60 (Some EmptyString) in
  let w := world0 upstream_hello in
  fetch request env w =
    (Returned (error_response 500 "Service configuration error"),
     emit (EvConsole ErrorLevel "ANTHROPIC_API_KEY not configured")
       (snd (checkRateLimit env "1.2.3.4" w))).
Proof.
  intros request env w.
  apply (X4_missing_api_key request env w (snd (checkRateLimit env "1.2.3.4" w))
           {| allowed := true; remaining := 49 |}
           (JObj [("prompt", JStr "Hello")]));
    try reflexivity.
  right. reflexivity.
Defined.

(** X5. A POST that passed the limiter and whose body is not JSON, or
    is the JSON value [null], is answered 500 [An unexpected error
    occurred], not 400: the exception reaches the catch block.  The
    request has been counted and the upstream is not called. *)
Theorem X5_unreadable_body_is_500
    {S : Type} (request : Request) (env : Env S) (w w1 : World S)
    (rl : RateLimitResult) :
  method request = "POST" ->
  checkRateLimit env (clientIP_of request) w = (Returned rl, w1) ->
  allowed rl = true ->
  req_json request = None \/ req_json request = Some JNull ->
  fetch request env w =
    (Returned (error_response 500 "An unexpected error occurred"),
     emit (EvConsole ErrorLevel "Worker error:") w1).
Proof.
  intros Hm Hrl Hallowed Hbody.
  unfold fetch, try_catch, fetch_try, bind, request_json, lift, ret, console.
  rewrite Hm.
  cbv beta iota zeta delta [String.eqb Ascii.eqb Bool.eqb negb].
  rewrite Hrl, Hallowed. destruct Hbody as [-> | ->]; reflexivity.
Qed.

Example X5_not_json_example :
  let request :=
    {| method := "POST"; req_headers := from_ip "1.2.3.4"; req_json := None |} in
  let w := world0 upstream_hello in
  fetch request env_mem w =
    (Returned (error_response 500 "An unexpected error occurred"),
     emit (EvConsole ErrorLevel "Worker error:")
       (snd (checkRateLimit env_mem "1.2.3.4" w))).
Proof.
  intros request w.
  apply (X5_unreadable_body_is_500 request env_mem w
           (snd (checkRateLimit env_mem "1.2.3.4" w))
           {| allowed := true; remaining := 49 |});
    try reflexivity.
  left. reflexivity.
Defined.

(** X6. When the upstream call itself throws, or answers with a success
    status and a body that is not JSON, the caller receives 500
    [An unexpected error occurred]. *)
Theorem X6_upstream_failure_is_500
    {S : Type} (request : Request) (env : Env S) (w : World S)
    (req : UpstreamRequest) :
  In (EvUpstream req) (events_since w (snd (fetch request env w))) ->
  (exists e, w_upstream w req = Thrown e) \/
  (exists resp, w_upstream w req = Returned resp /\
     200 <= up_status resp <= 299 /\ up_json resp = None) ->
  fst (fetch request env w) =
    Returned (error_response 500 "An unexpected error occurred").
Proof.
  intros Hin Hup. revert Hin. unfold fetch.
  destruct (String.eqb (method request) "OPTIONS").
  { unfold ret; simpl. rewrite events_since_refl. intros []. }
  destruct (String.eqb (method request) "POST"); simpl.
  2:{ unfold ret; simpl. rewrite events_since_refl. intros []. }
  fetch_post_cases request env w rl s1 d Hd; intros Hin;
    try (exfalso; eapply limiter_no_upstream; eassumption);
    try reflexivity;
    upstream_event Hin Hd;
    injection Hin as <-;
    destruct Hup as [(e & Hup) | (resp & Hup & Hst & Hnone)];
    match goal with
    | H : w_upstream w _ = _ |- _ =>
        rewrite Hup in H; try discriminate H; injection H as <-
    end;
    try congruence;
    assert (Hok : ok resp = true) by (unfold ok; lia);
    rewrite Hok in *; discriminate.
Qed.

Example X6_network_error_example :
  let request := post (from_ip "1.2.3.4") (JObj [("prompt", JStr "Hello")]) in
  let w := world0 (fun _ => Thrown NetworkError) in
  fst (fetch request env_mem w) =
    Returned (error_response 500 "An unexpected error occurred").
Proof.
  intros request w.
  apply (X6_upstream_failure_is_500 request env_mem w
           (upstream_request "sk-test" (JStr "You are a helpful AI assistant.")
              (JStr "Hello"))).
  - vm_compute. right. right. left. reflexivity.
  - left. exists NetworkError. reflexivity.
Defined.

Lemma apiKey_of_Some {S : Type} (env : Env S) (k : string) :
  apiKey_of env = Some k -> ANTHROPIC_API_KEY env = Some k /\ k <> EmptyString.
Proof.
  unfold apiKey_of. destruct (ANTHROPIC_API_KEY env) as [k'|]; [| discriminate].
  destruct (String.eqb_spec k' EmptyString); [discriminate |].
  intros [= <-]. auto.
Qed.

Lemma get_prop_Returned (b : JSValue) (k : string) (x : JSValue) :
  get_prop b k = Returned x -> nullish b = false /\ x = prop b k.
Proof.
  unfold prop. intros H. rewrite H. split; [| reflexivity].
  destruct b; simpl in *; try discriminate; reflexivity.
Qed.

Lemma valid_prompt_string (v : JSValue) :
  (negb (truthy v) || negb (is_string v))%bool = false ->
  exists text, v = JStr text /\ text <> EmptyString.
Proof.
  intros Hv. apply orb_false_iff in Hv as [Ht Hs].
  destruct v; simpl in *; try discriminate. exists s. split; [reflexivity |].
  intros ->. discriminate.
Qed.

(** X7. The upstream is only ever called for a body whose
    [prompt || message] is a non-empty string and with a non-empty API
    key, and the call is exactly the one of lines 74-93: that string as
    the single user message, [body.system] as the system text when it is
    truthy and the default persona otherwise, the key in [x-api-key]. *)
Theorem X7_upstream_call_shape
    {S : Type} (request : Request) (env : Env S) (w : World S)
    (req : UpstreamRequest) :
  In (EvUpstream req) (events_since w (snd (fetch request env w))) ->
  exists b k text,
    method request = "POST" /\
    req_json request = Some b /\
    ANTHROPIC_API_KEY env = Some k /\ k <> EmptyString /\
    js_or (prop b "prompt") (prop b "message") = JStr text /\
    text <> EmptyString /\
    req = upstream_request k
            (if truthy (prop b "system") then prop b "system"
             else JStr "You are a helpful AI assistant.")
            (JStr text).
Proof.
  unfold fetch.
  destruct (String.eqb (method request) "OPTIONS").
  { unfold ret; simpl. rewrite events_since_refl. intros []. }
  destruct (String.eqb_spec (method request) "POST") as [Hm | Hm]; simpl.
  2:{ unfold ret; simpl. rewrite events_since_refl. intros []. }
  fetch_post_cases request env w rl s1 d Hd; intros Hin;
    try (exfalso; eapply limiter_no_upstream; eassumption);
    upstream_event Hin Hd;
    injection Hin as <-;
    repeat match goal with
    | H : get_prop _ _ = Returned _ |- _ =>
        apply get_prop_Returned in H; destruct H as [? ->]
    end;
    match goal with
    | Hk : apiKey_of env = Some ?k,
      Hv : (negb (truthy ?v) || negb (is_string ?v))%bool = false |- _ =>
        destruct (apiKey_of_Some env k Hk) as [Hk1 Hk2];
        destruct (valid_prompt_string v Hv) as (text & Hv1 & Hv2);
        eexists _, k, text; unfold js_or in *;
        repeat match goal with
        | H : truthy _ = _ |- _ => rewrite H in *
        end;
        rewrite Hv1; repeat split; auto
    end.
Qed.

Example X7_persona_default_example :
  let request := post (from_ip "1.2.3.4") (JObj [("prompt", JStr "Hello")]) in
  let w := world0 upstream_hello in
  exists b k text,
    method request = "POST" /\
    req_json request = Some b /\
    ANTHROPIC_API_KEY env_mem = Some k /\ k <> EmptyString /\
    js_or (prop b "prompt") (prop b "message") = JStr text /\
    text <> EmptyString /\
    upstream_request "sk-test" (JStr "You are a helpful AI assistant.") (JStr "Hello")
      = upstream_request k
          (if truthy (prop b "system") then prop b "system"
           else JStr "You are a helpful AI assistant.")
          (JStr text).
Proof.
  intros request w.
  apply (X7_upstream_call_shape request env_mem w
           (upstream_request "sk-test" (JStr "You are a helpful AI assistant.")
              (JStr "Hello"))).
  vm_compute. right. right. left. reflexivity.
Defined.

(** X8. What the limiter reports as [remaining]: 0 when it rejects, the
    ceiling minus the count it has just stored when its write went
    through, and the full ceiling when it failed open (no namespace, or
    a store call that threw). *)
Theorem X8_remaining_matches_store
    {S : Type} (env : Env S) (id : string) (w : World S) :
  let w' := snd (checkRateLimit env id w) in
  exists res,
    fst (checkRateLimit env id w) = Returned res /\
    (allowed res = false -> remaining res = 0) /\
    (forall k v ttl,
       In (EvKvPut k v ttl false) (events_since w w') ->
       remaining res = RATE_LIMIT_REQUESTS - count v) /\
    (RATE_LIMIT env = None \/ existsb kv_failed (events_since w w') = true ->
       remaining res = RATE_LIMIT_REQUESTS).
Proof.
  cbv zeta. limiter_unfold.
  destruct (RATE_LIMIT env) as [ns|]; simpl.
  - destruct (kv_get ns _ _ _) as [[rec|]|e]; simpl.
    + destruct (_ >? _)%Z; [| destruct (_ >=? _)%Z];
        try destruct (kv_put ns _ _ _ _ _); trace_norm;
        (eexists; split; [reflexivity |]); simpl;
        (split; [try discriminate; auto |]);
        (split;
         [ intros k v ttl Hin;
           repeat (destruct Hin as [Hin | Hin]; try discriminate Hin);
           try contradiction; injection Hin as _ <- _; reflexivity
         | intros [Hno | Hf]; try discriminate; reflexivity ]).
    + destruct (kv_put ns _ _ _ _ _); trace_norm;
        (eexists; split; [reflexivity |]); simpl;
        (split; [discriminate |]);
        (split;
         [ intros k v ttl Hin;
           repeat (destruct Hin as [Hin | Hin]; try discriminate Hin);
           try contradiction; injection Hin as _ <- _; reflexivity
         | intros [Hno | Hf]; try discriminate; reflexivity ]).
    + trace_norm. eexists. split; [reflexivity |]. simpl.
      split; [discriminate |]. split; [| reflexivity].
      intros k v ttl Hin.
      repeat (destruct Hin as [Hin | Hin]; try discriminate Hin). contradiction.
  - trace_norm. eexists. split; [reflexivity |]. simpl.
    split; [discriminate |]. split; [| reflexivity].
    intros k v ttl Hin.
    repeat (destruct Hin as [Hin | Hin]; try discriminate Hin). contradiction.
Qed.

(** X9. Every write the limiter makes asks for an expiry that lands
    exactly on the stored record's [resetAt], and never in the past:
    [now + expirationTtl = resetAt] and [expirationTtl >= 0]. *)
Theorem X9_expiry_lands_on_reset
    {S : Type} (env : Env S) (id : string) (w : World S)
    (k : string) (v : RateLimitRecord) (ttl : Z) (failed : bool) :
  In (EvKvPut k v ttl failed) (events_since w (snd (checkRateLimit env id w))) ->
  now_of w + ttl = resetAt v /\ 0 <= ttl.
Proof.
  limiter_unfold.
  destruct (RATE_LIMIT env) as [ns|]; simpl.
  - destruct (kv_get ns _ _ _) as [[rec|]|e]; simpl.
    + destruct (_ >? _)%Z eqn:Hgt; [| destruct (_ >=? _)%Z];
        try destruct (kv_put ns _ _ _ _ _); trace_norm; intros Hin;
        repeat (destruct Hin as [Hin | Hin]; try discriminate Hin);
        try contradiction; injection Hin as _ <- <- _; simpl;
        unfold RATE_LIMIT_WINDOW; lia.
    + destruct (kv_put ns _ _ _ _ _); trace_norm; intros Hin;
        repeat (destruct Hin as [Hin | Hin]; try discriminate Hin);
        try contradiction; injection Hin as _ <- <- _; simpl;
        unfold RATE_LIMIT_WINDOW; lia.
    + trace_norm. intros Hin.
      repeat (destruct Hin as [Hin | Hin]; try discriminate Hin). contradiction.
  - trace_norm. intros Hin.
    repeat (destruct Hin as [Hin | Hin]; try discriminate Hin). contradiction.
Qed.

Example X9_increment_example :
  let w := world_with "ratelimit:1.2.3.4"
             {| count := 3; resetAt := 1700000900 |} 1700000900 upstream_hello in
  now_of w + 900 = resetAt {| count := 4; resetAt := 1700000900 |} /\ 0 <= 900.
Proof.
  intro w.
  apply (X9_expiry_lands_on_reset env_mem "1.2.3.4" w "ratelimit:1.2.3.4"
           {| count := 4; resetAt := 1700000900 |} 900 false).
  vm_compute. right. left. reflexivity.
Defined.

Example X8_first_request_example :
  exists res,
    fst (checkRateLimit env_mem "1.2.3.4" (world0 upstream_hello)) = Returned res /\
    remaining res = 49.
Proof.
  destruct (X8_remaining_matches_store env_mem "1.2.3.4" (world0 upstream_hello))
    as (res & Hres & _ & Hput & _).
  exists res. split; [exact Hres |].
  apply (Hput "ratelimit:1.2.3.4" {| count := 1; resetAt := 1700003600 |} 3600).
  vm_compute. right. left. reflexivity.
Defined.

(** ** One client's requests on the in-memory store *)

Lemma fetch_allowed_not_429 {S : Type} (request : Request) (env : Env S)
    (w w1 : World S) (rl : RateLimitResult) :
  method request = "POST" ->
  checkRateLimit env (clientIP_of request) w = (Returned rl, w1) ->
  allowed rl = true ->
  exists r, fst (fetch request env w) = Returned r /\ status r <> 429.
Proof.
  intros Hm Hrl Hallowed. revert Hrl. unfold fetch. rewrite Hm.
  cbv beta iota zeta delta [String.eqb Ascii.eqb Bool.eqb negb].
  fetch_post_cases request env w rl' s1 d Hd; intros [= <- <-];
    try (rewrite Hallowed in *; discriminate);
    eexists; (split; [reflexivity |]); simpl; discriminate.
Qed.

Section OneClient.

Context (m : Z) (apiKey : option string).
Local Abbreviation env := (mem_env m apiKey).

Lemma limiter_mem_other (id : string) (w : World (gmap string StoredEntry))
    (key' : string) :
  key' <> "ratelimit:" +:+ id ->
  w_store (snd (checkRateLimit env id w)) !! key' = w_store w !! key'.
Proof.
  intros Hne. unfold mem_env. limiter_unfold.
  cbn [RATE_LIMIT kv_get kv_put MemKV]. unfold mem_get, mem_put.
  repeat (break_match; cbn [fst snd w_store emit set_store]);
    try reflexivity;
    apply lookup_insert_ne; congruence.
Qed.

Lemma limiter_mem_counts (id : string) (w : World (gmap string StoredEntry))
    (rec : RateLimitRecord) (expires : Z) :
  w_store w !! ("ratelimit:" +:+ id) = Some (mkEntry rec expires) ->
  now_of w < expires ->
  now_of w <= resetAt rec ->
  count rec < RATE_LIMIT_REQUESTS ->
  m <= resetAt rec - now_of w ->
  checkRateLimit env id w =
    (Returned {| allowed := true;
                 remaining := RATE_LIMIT_REQUESTS - (count rec + 1) |},
     emit (EvKvPut ("ratelimit:" +:+ id)
             {| count := count rec + 1; resetAt := resetAt rec |}
             (resetAt rec - now_of w) false)
       (set_store
          (<["ratelimit:" +:+ id :=
               mkEntry {| count := count rec + 1; resetAt := resetAt rec |}
                 (now_of w + (resetAt rec - now_of w))]> (w_store w))
          (emit (EvKvGet ("ratelimit:" +:+ id) false) w))).
Proof.
  intros Hrec Hlive Hwin Hroom Httl. unfold now_of in *.
  unfold mem_env. limiter_unfold.
  cbn [RATE_LIMIT kv_get kv_put MemKV]. unfold mem_get, mem_put. rewrite Hrec.
  cbn [entry_value entry_expires].
  assert (H1 : (w_clock w / 1000 <? expires)%Z = true) by lia.
  assert (H2 : (w_clock w / 1000 >? resetAt rec)%Z = false) by lia.
  assert (H3 : (count rec >=? RATE_LIMIT_REQUESTS)%Z = false) by lia.
  assert (H4 : (resetAt rec - w_clock w / 1000 <? m)%Z = false) by lia.
  rewrite H1. cbn [w_clock w_store emit threw]. rewrite H2, H3, H4. reflexivity.
Qed.

Lemma limiter_mem_resets (id : string) (w : World (gmap string StoredEntry)) :
  w_store w !! ("ratelimit:" +:+ id) = None \/
  (exists rec expires,
     w_store w !! ("ratelimit:" +:+ id) = Some (mkEntry rec expires) /\
     (expires <= now_of w \/ resetAt rec < now_of w)) ->
  m <= RATE_LIMIT_WINDOW ->
  let fresh := {| count := 1; resetAt := now_of w + RATE_LIMIT_WINDOW |} in
  checkRateLimit env id w =
    (Returned {| allowed := true; remaining := RATE_LIMIT_REQUESTS - 1 |},
     emit (EvKvPut ("ratelimit:" +:+ id) fresh RATE_LIMIT_WINDOW false)
       (set_store
          (<["ratelimit:" +:+ id :=
               mkEntry fresh (now_of w + RATE_LIMIT_WINDOW)]> (w_store w))
          (emit (EvKvGet ("ratelimit:" +:+ id) false) w))).
Proof.
  intros Hrec Httl. cbv zeta. unfold now_of in *.
  unfold mem_env. limiter_unfold.
  cbn [RATE_LIMIT kv_get kv_put MemKV]. unfold mem_get, mem_put.
  assert (H4 : (RATE_LIMIT_WINDOW <? m)%Z = false) by lia.
  destruct Hrec as [-> | (rec & expires & -> & Hgone)].
  - cbn [w_clock w_store emit threw]. rewrite H4. reflexivity.
  - cbn [entry_value entry_expires].
    destruct (w_clock w / 1000 <? expires)%Z eqn:Hlive.
    + assert (H2 : (w_clock w / 1000 >? resetAt rec)%Z = true) by lia.
      cbn [w_clock w_store emit threw]. rewrite H2, H4. reflexivity.
    + cbn [w_clock w_store emit threw]. rewrite H4. reflexivity.
Qed.

End OneClient.

Lemma ratelimit_key_inj (a b : string) :
  "ratelimit:" +:+ a = "ratelimit:" +:+ b -> a = b.
Proof. simpl. intros H. injection H as H. exact H. Qed.

(** X10. Serving a request leaves every other client's record as it
    was: on the in-memory store only the sender's own key can change. *)
Theorem X10_other_clients_untouched
    (m : Z) (apiKey : option string) (request : Request)
    (w : World (gmap string StoredEntry)) (other : string) :
  other <> clientIP_of request ->
  w_store (snd (fetch request (mem_env m apiKey) w)) !! ("ratelimit:" +:+ other)
    = w_store w !! ("ratelimit:" +:+ other).
Proof.
  intros Hne.
  destruct (String.eqb_spec (method request) "POST") as [Hm | Hm].
  - destruct (fetch_post_split request (mem_env m apiKey) w Hm)
      as (d2 & _ & _ & -> & _).
    apply limiter_mem_other. intros Heq. apply Hne.
    exact (ratelimit_key_inj _ _ Heq).
  - rewrite (fetch_other_world request (mem_env m apiKey) w Hm). reflexivity.
Qed.

Example X10_two_clients_example :
  let request := post (from_ip "5.6.7.8") (JObj [("prompt", JStr "Hello")]) in
  let w := world_with "ratelimit:1.2.3.4"
             {| count := 7; resetAt := 1700000900 |} 1700000900 upstream_hello in
  w_store (snd (fetch request env_mem w)) !! "ratelimit:1.2.3.4"
    = w_store w !! "ratelimit:1.2.3.4".
Proof.
  intros request w.
  apply (X10_other_clients_untouched 60 (Some "sk-test") request w "1.2.3.4").
  discriminate.
Defined.

(** X11. Inside the window and under the ceiling, a POST is counted: on
    the in-memory store the client's count goes up by exactly one, the
    window end [resetAt] stays where it was, the entry expires at
    [resetAt], and the answer is not 429.  (The store must accept the
    remaining time as an expiry.) *)
Theorem X11_request_in_window_counts
    (m : Z) (apiKey : option string) (request : Request)
    (w : World (gmap string StoredEntry))
    (rec : RateLimitRecord) (expires : Z) :
  method request = "POST" ->
  w_store w !! ("ratelimit:" +:+ clientIP_of request) = Some (mkEntry rec expires) ->
  now_of w < expires ->
  now_of w <= resetAt rec ->
  count rec < RATE_LIMIT_REQUESTS ->
  m <= resetAt rec - now_of w ->
  w_store (snd (fetch request (mem_env m apiKey) w))
      !! ("ratelimit:" +:+ clientIP_of request)
    = Some (mkEntry {| count := count rec + 1; resetAt := resetAt rec |}
              (resetAt rec)) /\
  exists r,
    fst (fetch request (mem_env m apiKey) w) = Returned r /\ status r <> 429.
Proof.
  intros Hm Hrec Hlive Hwin Hroom Httl.
  pose proof (limiter_mem_counts m apiKey (clientIP_of request) w rec expires
                Hrec Hlive Hwin Hroom Httl) as Hrun.
  split.
  - destruct (fetch_post_split request (mem_env m apiKey) w Hm)
      as (d2 & _ & _ & -> & _).
    rewrite Hrun. cbn [snd w_store emit set_store].
    rewrite lookup_insert_eq. do 2 f_equal. lia.
  - exact (fetch_allowed_not_429 request (mem_env m apiKey) w _ _ Hm Hrun eq_refl).
Qed.

Example X11_fourth_request_example :
  let request := post (from_ip "1.2.3.4") (JObj [("prompt", JStr "Hello")]) in
  let w := world_with "ratelimit:1.2.3.4"
             {| count := 3; resetAt := 1700000900 |} 1700000900 upstream_hello in
  w_store (snd (fetch request env_mem w)) !! "ratelimit:1.2.3.4"
    = Some (mkEntry {| count := 4; resetAt := 1700000900 |} 1700000900) /\
  exists r, fst (fetch request env_mem w) = Returned r /\ status r <> 429.
Proof.
  intros request w.
  apply (X11_request_in_window_counts 60 (Some "sk-test") request w
           {| count := 3; resetAt := 1700000900 |} 1700000900);
    vm_compute; try reflexivity; discriminate.
Defined.

(** X12. When the client has no live record (none stored, the entry
    expired, or [now] past [resetAt]), a POST opens a new window: the
    stored record becomes [{count: 1, resetAt: now + WINDOW}], expiring
    at that [resetAt], and the answer is not 429. *)
Theorem X12_request_opens_window
    (m : Z) (apiKey : option string) (request : Request)
    (w : World (gmap string StoredEntry)) :
  method request = "POST" ->
  w_store w !! ("ratelimit:" +:+ clientIP_of request) = None \/
  (exists rec expires,
     w_store w !! ("ratelimit:" +:+ clientIP_of request)
       = Some (mkEntry rec expires) /\
     (expires <= now_of w \/ resetAt rec < now_of w)) ->
  m <= RATE_LIMIT_WINDOW ->
  w_store (snd (fetch request (mem_env m apiKey) w))
      !! ("ratelimit:" +:+ clientIP_of request)
    = Some (mkEntry {| count := 1; resetAt := now_of w + RATE_LIMIT_WINDOW |}
              (now_of w + RATE_LIMIT_WINDOW)) /\
  exists r,
    fst (fetch request (mem_env m apiKey) w) = Returned r /\ status r <> 429.
Proof.
  intros Hm Hrec Httl.
  pose proof (limiter_mem_resets m apiKey (clientIP_of request) w Hrec Httl) as Hrun.
  cbv zeta in Hrun. split.
  - destruct (fetch_post_split request (mem_env m apiKey) w Hm)
      as (d2 & _ & _ & -> & _).
    rewrite Hrun. cbn [snd w_store emit set_store].
    apply lookup_insert_eq.
  - exact (fetch_allowed_not_429 request (mem_env m apiKey) w _ _ Hm Hrun eq_refl).
Qed.

Example X12_after_window_example :
  let request := post (from_ip "1.2.3.4") (JObj [("prompt", JStr "Hello")]) in
  let w := world_with "ratelimit:1.2.3.4"
             {| count := 50; resetAt := 1699999000 |} 1700000900 upstream_hello in
  w_store (snd (fetch request env_mem w)) !! "ratelimit:1.2.3.4"
    = Some (mkEntry {| count := 1; resetAt := 1700003600 |} 1700003600) /\
  exists r, fst (fetch request env_mem w) = Returned r /\ status r <> 429.
Proof.
  intros request w.
  apply (X12_request_opens_window 60 (Some "sk-test") request w).
  - reflexivity.
  - right. exists {| count := 50; resetAt := 1699999000 |}, 1700000900.
    split; [reflexivity |]. right. vm_compute. reflexivity.
  - vm_compute. discriminate.
Defined.

(** ** When text extraction succeeds *)

Lemma array_filter_Returned (p : JSValue -> Outcome bool) (l l' : list JSValue) :
  array_filter p l = Returned l' ->
  Forall (fun x => exists keep, p x = Returned keep) l.
Proof.
  revert l'. induction l as [| x l IH]; intros l'; simpl; [constructor |].
  destruct (p x) as [keep|e] eqn:Hp; simpl; [| discriminate].
  destruct (array_filter p l) as [rest|e] eqn:Hrest; simpl; [| discriminate].
  intros _. constructor; eauto.
Qed.

(** What [join] can print.  An array prints as its elements joined by a
    comma. *)
Lemma ToString_JArr (items : list JSValue) :
  ToString (JArr items) = array_join "," items.
Proof. reflexivity. Qed.

Lemma join_with_cons (sep : string) (elt : JSValue -> Outcome string)
    (x y : JSValue) (l : list JSValue) :
  join_with sep elt (x :: y :: l) =
    obind (elt x) (fun a =>
    obind (join_with sep elt (y :: l)) (fun b =>
    Returned (a +:+ sep +:+ b))).
Proof. reflexivity. Qed.

Lemma join_with_Returned (sep : string) (elt : JSValue -> Outcome string)
    (q : JSValue -> bool) (l : list JSValue) :
  Forall (fun x => (exists s, elt x = Returned s) <-> q x = true) l ->
  (exists s, join_with sep elt l = Returned s) <-> forallb q l = true.
Proof.
  induction 1 as [| x l Hx Hl IH].
  - simpl. split; eauto.
  - cbn [forallb]. rewrite andb_true_iff, <- Hx, <- IH.
    destruct l as [| y l].
    + simpl. split; [intros H; split; eauto | intros [H _]; exact H].
    + rewrite join_with_cons.
      destruct (elt x) as [a|e]; cbn [obind].
      * destruct (join_with sep elt (y :: l)) as [b|e]; cbn [obind].
        -- split; [intros _; split; eauto | intros _; eauto].
        -- split; [intros (s & H); discriminate H
                  | intros [_ (s & H)]; discriminate H].
      * split; [intros (s & H); discriminate H
               | intros [(s & H) _]; discriminate H].
Qed.

Lemma join_elt_ToString (x : JSValue) :
  ((exists s, ToString x = Returned s) <-> printable x = true) ->
  ((exists s, join_elt x = Returned s) <-> printable x = true).
Proof. destruct x; simpl; intros H; try exact H; split; eauto. Qed.

Lemma ToString_printable (v : JSValue) :
  (exists s, ToString v = Returned s) <-> printable v = true.
Proof.
  induction v as [ | | b | n | s | items IH | props IH ]
    using JSValue_nested_ind;
    try (simpl; split; eauto; fail).
  - destruct b; simpl; split; eauto.
  - rewrite ToString_JArr. cbn [printable]. unfold array_join.
    apply join_with_Returned.
    eapply Forall_impl; [exact IH |]. intros x Hx. apply join_elt_ToString, Hx.
  - simpl. destruct (assoc_last "toString" props).
    + split; [intros (s & H); discriminate H | intros H; discriminate H].
    + split; eauto.
Qed.

Lemma array_join_printable (sep : string) (l : list JSValue) :
  (exists s, array_join sep l = Returned s) <->
  Forall (fun v => printable v = true) l.
Proof.
  unfold array_join.
  rewrite (join_with_Returned sep join_elt printable).
  - rewrite forallb_forall, List.Forall_forall. reflexivity.
  - apply List.Forall_forall. intros x _.
    apply join_elt_ToString, ToString_printable.
Qed.

(** X13. Text extraction succeeds exactly when the upstream data carries
    an array under [content], none of whose elements is [null], in which
    the text field of every block typed [text] is a value [join] can
    print (anything but an object with a [toString] property of its
    own, at any depth of nested arrays); any other data (no [content],
    a [content] that is not an array, a [null] block, [null] data, such
    a text field) makes it throw. *)
Theorem X13_extract_text_defined (data : JSValue) :
  (exists text, extract_text data = Returned text) <->
  (exists blocks,
     get_prop data "content" = Returned (JArr blocks) /\
     Forall (fun b => nullish b = false) blocks /\
     Forall (fun b => is_text_block b = true -> printable (prop b "text") = true)
       blocks).
Proof.
  split.
  - intros (text & H).
    assert (Hshape : exists blocks,
              get_prop data "content" = Returned (JArr blocks) /\
              Forall (fun b => nullish b = false) blocks).
    { unfold extract_text in H.
      destruct (get_prop data "content") as [c|e]; [| discriminate]. simpl in H.
      destruct c; try discriminate. simpl in H.
      exists items. split; [reflexivity |].
      destruct (array_filter _ items) as [texts|e] eqn:Hf; [| discriminate].
      apply array_filter_Returned in Hf.
      eapply Forall_impl; [exact Hf |]. intros b (keep & Hb). simpl in Hb.
      destruct b; simpl in *; try discriminate; reflexivity. }
    destruct Hshape as (blocks & Hc & Hb).
    exists blocks. split; [exact Hc |]. split; [exact Hb |].
    rewrite (extract_text_filter data blocks Hc Hb) in H.
    assert (Hp : exists s, array_join LF
               (map (fun b => prop b "text") (List.filter is_text_block blocks))
               = Returned s) by eauto.
    apply array_join_printable in Hp.
    rewrite List.Forall_forall in Hp. apply List.Forall_forall.
    intros b Hin Ht. apply Hp.
    apply (in_map (fun b => prop b "text")), filter_In. auto.
  - intros (blocks & Hc & Hb & Hp).
    rewrite (extract_text_filter data blocks Hc Hb).
    apply array_join_printable, List.Forall_forall.
    intros v Hv. apply in_map_iff in Hv as (b & <- & Hin).
    apply filter_In in Hin as [Hin Ht].
    rewrite List.Forall_forall in Hp. auto.
Qed.

(** * Properties of the page script *)

(** ** Trimming and checkpoint answers *)

Lemma trim_start_split (s : list N) :
  exists pre,
    s = (pre ++ trim_start s)%list /\ all_white pre /\
    (forall c, head (trim_start s) = Some c -> is_white_space c = false).
Proof.
  induction s as [| c s (pre & Hs & Hpre & Hhead)]; simpl.
  - exists []. repeat split; [constructor | discriminate].
  - destruct (is_white_space c) eqn:Hc.
    + exists (c :: pre). simpl. rewrite <- Hs. repeat split; [| exact Hhead].
      constructor; assumption.
    + exists []. repeat split; [constructor |]. simpl. intros c' [= <-]. exact Hc.
Qed.

Lemma trim_start_white (pre s : list N) :
  all_white pre -> trim_start (pre ++ s) = trim_start s.
Proof.
  induction 1 as [| c pre Hc _ IH]; simpl; [reflexivity |].
  rewrite Hc. exact IH.
Qed.

Lemma trim_start_nil (s : list N) : all_white s -> trim_start s = [].
Proof.
  intros H. rewrite <- (app_nil_r s). rewrite trim_start_white by assumption.
  reflexivity.
Qed.

Lemma trim_start_nil_inv (s : list N) : trim_start s = [] -> all_white s.
Proof.
  intros H. destruct (trim_start_split s) as (pre & Hs & Hpre & _).
  rewrite H, app_nil_r in Hs. subst. exact Hpre.
Qed.

Lemma all_white_rev (s : list N) : all_white s -> all_white (rev s).
Proof.
  unfold all_white. rewrite !List.Forall_forall. intros H c Hin.
  apply H. apply in_rev. exact Hin.
Qed.

Lemma trim_end_white (s post : list N) :
  all_white post -> trim_end (s ++ post) = trim_end s.
Proof.
  intros H. unfold trim_end. rewrite rev_app_distr.
  rewrite trim_start_white by (apply all_white_rev; exact H). reflexivity.
Qed.

Lemma trim_end_split (s : list N) :
  exists post,
    s = (trim_end s ++ post)%list /\ all_white post /\
    (forall c, last (trim_end s) = Some c -> is_white_space c = false).
Proof.
  unfold trim_end.
  destruct (trim_start_split (rev s)) as (pre & Hs & Hpre & Hhead).
  exists (rev pre). split; [| split].
  - rewrite <- rev_app_distr, <- Hs, rev_involutive. reflexivity.
  - apply all_white_rev. exact Hpre.
  - intros c Hc. apply Hhead.
    rewrite <- Hc. rewrite <- (rev_involutive (trim_start (rev s))) at 1.
    generalize (rev (trim_start (rev s))). intros l.
    destruct l as [| x l] using rev_ind; [reflexivity |].
    rewrite rev_app_distr, last_snoc. reflexivity.
Qed.

Lemma trim_end_nil (s : list N) : all_white s -> trim_end s = [].
Proof.
  intros H. unfold trim_end.
  rewrite trim_start_nil by (apply all_white_rev; exact H). reflexivity.
Qed.

Lemma trim_end_cons (c : N) (s : list N) :
  trim_end (c :: s) =
    match trim_end s with
    | [] => if is_white_space c then [] else [c]
    | t => c :: t
    end.
Proof.
  unfold trim_end. simpl rev at 2.
  destruct (trim_start_split (rev s)) as (pre & Hs & Hpre & Hhead).
  destruct (trim_start (rev s)) as [| x t] eqn:Ht.
  - rewrite app_nil_r in Hs. rewrite Hs.
    rewrite trim_start_white by exact Hpre. simpl.
    destruct (is_white_space c); reflexivity.
  - rewrite Hs at 1. rewrite <- app_assoc.
    rewrite trim_start_white by exact Hpre. simpl.
    rewrite (Hhead x eq_refl). simpl rev.
    rewrite rev_app_distr. simpl.
    destruct (rev t ++ [x])%list eqn:E; [| reflexivity].
    destruct (rev t); discriminate E.
Qed.

Lemma trim_commute (s : list N) :
  trim_start (trim_end s) = trim_end (trim_start s).
Proof.
  induction s as [| c s IH]; [reflexivity |].
  rewrite trim_end_cons. simpl trim_start at 2.
  destruct (is_white_space c) eqn:Hc.
  - destruct (trim_end s) as [| x t] eqn:Ht.
    + simpl. rewrite <- IH. reflexivity.
    + simpl. rewrite Hc. exact IH.
  - rewrite trim_end_cons.
    destruct (trim_end s) as [| x t]; simpl; rewrite Hc; reflexivity.
Qed.

Lemma trim_split (s : list N) :
  exists pre post,
    s = (pre ++ trim s ++ post)%list /\
    all_white pre /\ all_white post /\
    (forall c, head (trim s) = Some c -> is_white_space c = false) /\
    (forall c, last (trim s) = Some c -> is_white_space c = false).
Proof.
  unfold trim.
  destruct (trim_start_split s) as (pre & Hs & Hpre & Hhead).
  destruct (trim_end_split (trim_start s)) as (post & Ht & Hpost & Hlast).
  exists pre, post. split; [| split; [exact Hpre | split; [exact Hpost | split]]].
  - rewrite <- Ht. exact Hs.
  - intros c Hc. apply Hhead. rewrite Ht.
    destruct (trim_end (trim_start s)); [discriminate Hc | exact Hc].
  - exact Hlast.
Qed.

Lemma trim_padding (pre s post : list N) :
  all_white pre -> all_white post ->
  trim (pre ++ s ++ post) = trim s.
Proof.
  intros Hpre Hpost. unfold trim.
  rewrite trim_start_white by exact Hpre.
  rewrite <- !trim_commute. rewrite trim_end_white by exact Hpost.
  reflexivity.
Qed.

(** X15. White space around an answer does not count: padding the
    answer with white space on either side leaves the verdict of
    [validateCheckpoint] unchanged, for every minimum. *)
Theorem X15_padding_does_not_count
    (pre answer post : list N) (minLength : option Z) :
  all_white pre -> all_white post ->
  validateCheckpoint (pre ++ answer ++ post) minLength
    = validateCheckpoint answer minLength.
Proof.
  intros Hpre Hpost. unfold validateCheckpoint.
  rewrite trim_padding by assumption. reflexivity.
Qed.

Example X15_spaces_example :
  validateCheckpoint ([32; 9] ++ [72; 105] ++ [10; 160; 12288])%N%list (Some 2)
    = validateCheckpoint [72; 105]%N (Some 2).
Proof.
  apply X15_padding_does_not_count; repeat constructor.
Defined.

(** X16. An accepted answer has at least the minimum number of code
    units (20 when no minimum is given), and an answer of white space
    alone is accepted only for a minimum of 0 or less. *)
Theorem X16_short_and_blank_answers
    (answer : list N) (minLength : option Z) :
  let required := match minLength with
                  | Some n => n
                  | None => 20
                  end in
  (validateCheckpoint answer minLength = true ->
     required <= Z.of_nat (length answer)) /\
  (all_white answer ->
     validateCheckpoint answer minLength = (0 >=? required)%Z).
Proof.
  cbv zeta. unfold validateCheckpoint, CONFIG_MIN_CHECKPOINT_LENGTH. split.
  - intros H.
    destruct (trim_split answer) as (pre & post & Hs & _).
    apply (f_equal (@length N)) in Hs. rewrite !length_app in Hs.
    destruct minLength; lia.
  - intros Hw. unfold trim.
    rewrite (trim_start_nil answer Hw). reflexivity.
Qed.

Example X16_blank_answer_example :
  validateCheckpoint [32; 32; 10]%N None = (0 >=? 20)%Z.
Proof.
  apply (proj2 (X16_short_and_blank_answers [32; 32; 10]%N None)).
  repeat constructor.
Defined.

(** ** Progress in [localStorage] *)

Ltac page_unfold :=
  unfold checkAccess, saveProgress, read_progress, pbind, pret, plift,
    getItem, setItem, page_event in *.

Lemma app_two_neq {A : Type} (l : list A) (x y : A) : l <> (l ++ [x; y])%list.
Proof.
  intros H. apply (f_equal (@length A)) in H.
  rewrite length_app in H. simpl in H. lia.
Qed.

(** X17. [checkAccess] only reads: storage and document are never
    changed.  It returns [false] exactly when it has alerted the user
    and sent the page to the previous lesson, and in every other case
    (access granted, or an exception) the page is left as it was. *)
Theorem X17_checkAccess_reads_only (n : Z) (p : Page) :
  let r := fst (checkAccess n p) in
  let p' := snd (checkAccess n p) in
  localStorage p' = localStorage p /\
  document p' = document p /\
  (r = Returned false <->
     page_trace p' =
       (page_trace p ++
          [ EvAlert ("You must complete Lesson " +:+ pretty (n - 1) +:+ " first.");
            EvNavigate ("lesson-" +:+ pretty (n - 1) +:+ ".html") ])%list) /\
  (r <> Returned false -> p' = p).
Proof.
  cbv zeta. page_unfold.
  destruct (localStorage p !! "warRoomProgress") as [[| | v]|]; simpl;
    try destruct (n =? 1)%Z; simpl;
    repeat (break_match; simpl);
    rewrite <- ?app_assoc; simpl;
    (split; [reflexivity |]); (split; [reflexivity |]);
    (split; [split; intros H;
             first [ reflexivity | discriminate H
                   | exfalso; exact (app_two_neq _ _ _ H) ]
            | intros H; first [ reflexivity | exfalso; apply H; reflexivity ] ]).
Qed.

(** X18. [checkAccess] throws exactly when the stored text is not JSON
    (even for lesson 1, since the text is parsed first) or when, for a
    lesson other than 1, the stored value is [null] or has no usable
    [module1] ([null] or missing): a stored [{}] makes every later
    lesson throw rather than redirect. *)
Theorem X18_checkAccess_throws (n : Z) (p : Page) :
  (exists e, fst (checkAccess n p) = Thrown e) <->
  match localStorage p !! "warRoomProgress" with
  | Some NotJson => True
  | Some (JsonText v) =>
      n <> 1 /\ (nullish v = true \/ nullish (prop v "module1") = true)
  | _ => False
  end.
Proof.
  page_unfold. unfold prop.
  destruct (localStorage p !! "warRoomProgress") as [[| | v]|]; simpl.
  - destruct (n =? 1)%Z; simpl; repeat (break_match; simpl);
      split; intros H; try contradiction; destruct H as [e H]; discriminate H.
  - split; [auto | eauto].
  - destruct (Z.eqb_spec n 1) as [-> | Hn]; simpl.
    + split; [intros [e H]; discriminate H | intros [H _]; contradiction].
    + destruct (get_prop v "module1") as [m1|e] eqn:H1; simpl.
      * apply get_prop_Returned in H1 as [Hv _]. rewrite Hv.
        destruct (get_prop m1 _) as [c|e] eqn:H2; simpl.
        -- apply get_prop_Returned in H2 as [Hm _]. rewrite Hm.
           destruct (truthy c); simpl;
             (split; [intros [e H]; discriminate H
                     | intros [_ [H | H]]; discriminate H]).
        -- assert (Hm : nullish m1 = true)
             by (destruct m1; simpl in *; try discriminate; reflexivity).
           split; [auto | eauto].
      * assert (Hv : nullish v = true)
          by (destruct v; simpl in *; try discriminate; reflexivity).
        split; [auto | eauto].
  - destruct (n =? 1)%Z; simpl; repeat (break_match; simpl);
      split; intros H; try contradiction; destruct H as [e H]; discriminate H.
Qed.

(** X19. [saveProgress] fails cleanly: it throws exactly when the
    stored text is not JSON, or is [null], a boolean, a number or a
    string, and a call that throws has changed nothing. *)
Theorem X19_saveProgress_fails_cleanly (n : Z) (p : Page) :
  ((exists e, fst (saveProgress n p) = Thrown e) <->
   match localStorage p !! "warRoomProgress" with
   | Some NotJson => True
   | Some (JsonText v) => nullish v = true \/ is_primitive v = true
   | _ => False
   end) /\
  ((exists e, fst (saveProgress n p) = Thrown e) -> snd (saveProgress n p) = p).
Proof.
  page_unfold.
  destruct (localStorage p !! "warRoomProgress") as [[| | v]|]; simpl.
  - split; [| intros [e H]; discriminate H].
    split; [intros [e H]; discriminate H | contradiction].
  - split; [| reflexivity]. split; [auto | eauto].
  - destruct v as [ | | b | z | s | items | props]; simpl;
      try (split; [split; [auto | eauto] | reflexivity]).
    + split; [| intros [e H]; discriminate H].
      split; [intros [e H]; discriminate H | intros [H | H]; discriminate H].
    + destruct (assoc_last "module1" props) as [m1|]; simpl.
      * destruct (truthy m1) eqn:Ht; simpl.
        -- destruct m1; simpl in *; try discriminate Ht;
             (split; [| intros [e H]; discriminate H]);
             (split; [intros [e H]; discriminate H
                     | intros [H | H]; discriminate H]).
        -- split; [| intros [e H]; discriminate H].
           split; [intros [e H]; discriminate H
                  | intros [H | H]; discriminate H].
      * split; [| intros [e H]; discriminate H].
        split; [intros [e H]; discriminate H | intros [H | H]; discriminate H].
  - split; [| intros [e H]; discriminate H].
    split; [intros [e H]; discriminate H | contradiction].
Qed.

Example X18_missing_module1_example :
  exists e,
    fst (checkAccess 2 (mkPage {[ "warRoomProgress" := JsonText (JObj []) ]} [] []))
      = Thrown e.
Proof.
  apply (proj2 (X18_checkAccess_throws 2
                  (mkPage {[ "warRoomProgress" := JsonText (JObj []) ]} [] []))).
  vm_compute. split; [discriminate | right; reflexivity].
Defined.

Example X19_stored_number_example :
  let p := mkPage {[ "warRoomProgress" := JsonText (JNum 5) ]} [] [] in
  snd (saveProgress 1 p) = p.
Proof.
  intro p.
  apply (proj2 (X19_saveProgress_fails_cleanly 1 p)).
  exists TypeError. reflexivity.
Defined.

(** ** Saving and then asking *)

Lemma is_json_props (props : list (string * JSValue)) :
  is_json (JObj props) = true <->
  List.Forall (fun p => is_json (snd p) = true) props.
Proof.
  induction props as [| [k x] props IH]; simpl.
  - split; [constructor | reflexivity].
  - rewrite andb_true_iff. simpl in IH. rewrite IH. split.
    + intros [Hx Hrest]. constructor; assumption.
    + intros H. inversion H; subst. auto.
Qed.

Lemma JSON_clone_id (v : JSValue) : is_json v = true -> JSON_clone v = v.
Proof.
  induction v as [ | | b | n | s | items IH | props IH ]
    using JSValue_nested_ind; try reflexivity.
  - simpl. intros H. f_equal.
    induction IH as [| x items Hx _ IHitems]; [reflexivity |].
    simpl in H. apply andb_true_iff in H as [H1 H2]. simpl.
    rewrite (IHitems H2). f_equal.
    destruct x; try discriminate H1; exact (Hx H1).
  - intros H. apply is_json_props in H. simpl. f_equal.
    induction IH as [| [k x] props Hx _ IHprops]; [reflexivity |].
    inversion H as [| ? ? H1 H2]; subst. simpl in *.
    rewrite (IHprops H2).
    destruct x; try discriminate H1; rewrite <- (Hx H1) at 2; reflexivity.
Qed.

Lemma assoc_last_snoc_eq (k : string) (x : JSValue) (l : list (string * JSValue)) :
  assoc_last k (l ++ [(k, x)]) = Some x.
Proof.
  induction l as [| [k' v] l IH]; simpl.
  - rewrite String.eqb_refl. reflexivity.
  - rewrite IH. reflexivity.
Qed.

Lemma assoc_last_snoc_ne (k k' : string) (x : JSValue)
    (l : list (string * JSValue)) :
  k' <> k -> assoc_last k' (l ++ [(k, x)]) = assoc_last k' l.
Proof.
  intros Hne. induction l as [| [k0 v] l IH]; simpl.
  - destruct (String.eqb_spec k' k); [contradiction | reflexivity].
  - rewrite IH. reflexivity.
Qed.

Lemma assoc_last_filter_ne (k k' : string) (l : list (string * JSValue)) :
  k' <> k ->
  assoc_last k' (List.filter (fun p => negb (String.eqb (fst p) k)) l)
    = assoc_last k' l.
Proof.
  intros Hne. induction l as [| [k0 v] l IH]; simpl; [reflexivity |].
  destruct (String.eqb_spec k0 k) as [-> | Hk0]; simpl.
  - rewrite IH. destruct (assoc_last k' l); [reflexivity |].
    destruct (String.eqb_spec k' k); [contradiction | reflexivity].
  - rewrite IH. reflexivity.
Qed.

Lemma prop_obj_set_eq (k : string) (x : JSValue) (props : list (string * JSValue)) :
  prop (JObj (obj_set k x props)) k = x.
Proof. unfold prop, obj_set. simpl. rewrite assoc_last_snoc_eq. reflexivity. Qed.

Lemma prop_obj_set_ne (k k' : string) (x : JSValue)
    (props : list (string * JSValue)) :
  k' <> k -> prop (JObj (obj_set k x props)) k' = prop (JObj props) k'.
Proof.
  intros Hne. unfold prop, obj_set. simpl.
  rewrite assoc_last_snoc_ne, assoc_last_filter_ne by assumption. reflexivity.
Qed.

Lemma is_json_obj_set (k : string) (x : JSValue) (props : list (string * JSValue)) :
  is_json (JObj props) = true -> is_json x = true ->
  is_json (JObj (obj_set k x props)) = true.
Proof.
  rewrite !is_json_props. intros Hp Hx. unfold obj_set.
  apply List.Forall_app. split.
  - rewrite List.Forall_forall in *. intros q Hq.
    apply filter_In in Hq as [Hq _]. auto.
  - constructor; [exact Hx | constructor].
Qed.

Lemma is_json_prop (props : list (string * JSValue)) (k : string) :
  is_json (JObj props) = true ->
  prop (JObj props) k = JUndefined \/ is_json (prop (JObj props) k) = true.
Proof.
  rewrite is_json_props. unfold prop. simpl.
  induction 1 as [| [k' v] l Hv _ IH]; simpl; [auto |].
  destruct (assoc_last k l) as [y|]; [exact IH |].
  destruct (String.eqb k k'); auto.
Qed.

Lemma lesson_key_inj (a b : Z) : lesson_key a = lesson_key b -> a = b.
Proof.
  unfold lesson_key. simpl. intros H. injection H as H.
  exact (inj pretty _ _ H).
Qed.

(** What [saveProgress] leaves in storage when the progress is an
    object: [module1], made an object if it was falsy, with the lesson
    bound to [true]. *)
Lemma saveProgress_object (n : Z) (p : Page) :
  progress_object p ->
  exists props ps,
    stored_progress p = JObj props /\
    is_json (JObj props) = true /\
    is_json (JObj ps) = true /\
    (if truthy (prop (JObj props) "module1")
     then prop (JObj props) "module1" = JObj ps
     else ps = []) /\
    saveProgress n p =
      (Returned tt,
       mkPage
         (<["warRoomProgress" :=
              JsonText
                (JObj (obj_set "module1"
                         (JObj (obj_set (lesson_key n) (JBool true) ps))
                         (if truthy (prop (JObj props) "module1") then props
                          else obj_set "module1" (JObj []) props)))]>
            (localStorage p))
         (document p)
         (page_trace p ++
            [EvPageLog ("Progress saved: Lesson " +:+ pretty n +:+ " completed")])).
Proof.
  unfold progress_object, stored_progress. page_unfold.
  destruct (localStorage p !! "warRoomProgress") as [[| | v]|] eqn:Hitem;
    try contradiction.
  - intros _. exists [("module1", JObj [])], []. simpl.
    repeat split; reflexivity.
  - destruct v as [ | | | | | | props]; try contradiction.
    intros [Hjson Hm1].
    assert (Hget : get_prop (JObj props) "module1"
                     = Returned (prop (JObj props) "module1")) by reflexivity.
    rewrite Hget. clear Hget.
    destruct Hm1 as [Hfalsy | [ps Hps]].
    + exists props, []. rewrite Hfalsy.
      cbn -[JSON_clone obj_set prop].
      split; [reflexivity |]. split; [exact Hjson |].
      split; [reflexivity |]. split; [reflexivity |].
      rewrite JSON_clone_id; [reflexivity |].
      apply is_json_obj_set; [| reflexivity].
      apply is_json_obj_set; [exact Hjson | reflexivity].
    + exists props, ps. rewrite Hps.
      cbn -[JSON_clone obj_set prop].
      assert (Hjps : is_json (JObj ps) = true).
      { destruct (is_json_prop props "module1" Hjson) as [H | H];
          rewrite Hps in H; [discriminate H | exact H]. }
      split; [reflexivity |]. split; [exact Hjson |].
      split; [exact Hjps |]. split; [reflexivity |].
      rewrite JSON_clone_id; [reflexivity |].
      apply is_json_obj_set; [exact Hjson |].
      apply is_json_obj_set; [exact Hjps | reflexivity].
  - intros _. exists [("module1", JObj [])], []. simpl.
    repeat split; reflexivity.
Qed.

Lemma falsy_has_no_lessons (m1 : JSValue) (k : string) :
  truthy m1 = false -> truthy (prop m1 k) = false.
Proof. unfold prop. destruct m1; simpl; try reflexivity; discriminate. Qed.

Lemma checkAccess_object (n : Z) (p : Page) :
  progress_object p ->
  nullish (prop (stored_progress p) "module1") = false ->
  checkAccess n p =
    if ((n =? 1)%Z || lesson_done (n - 1) p)%bool then (Returned true, p)
    else
      (Returned false,
       mkPage (localStorage p) (document p)
         (page_trace p ++
            [ EvAlert ("You must complete Lesson " +:+ pretty (n - 1) +:+ " first.");
              EvNavigate ("lesson-" +:+ pretty (n - 1) +:+ ".html") ])).
Proof.
  unfold progress_object, lesson_done, stored_progress. page_unfold.
  destruct (localStorage p !! "warRoomProgress") as [[| | v]|];
    try contradiction.
  - intros _ _. destruct (n =? 1)%Z; [reflexivity |].
    cbn -[lesson_key]. rewrite <- ?app_assoc. reflexivity.
  - destruct v as [ | | | | | | props]; try contradiction.
    intros _ Hnn. destruct (n =? 1)%Z; [reflexivity |].
    cbn -[lesson_key prop get_prop].
    assert (Hget : get_prop (JObj props) "module1"
                     = Returned (prop (JObj props) "module1")) by reflexivity.
    rewrite Hget. clear Hget. cbn -[lesson_key prop get_prop].
    rewrite (get_prop_prop _ (lesson_key (n - 1)) Hnn).
    cbn -[lesson_key prop get_prop].
    destruct (truthy _); cbn; rewrite <- ?app_assoc; reflexivity.
  - intros _ _. destruct (n =? 1)%Z; [reflexivity |].
    cbn -[lesson_key]. rewrite <- ?app_assoc. reflexivity.
Qed.

Lemma saveProgress_effect (n : Z) (p : Page) :
  progress_object p ->
  let p1 := snd (saveProgress n p) in
  fst (saveProgress n p) = Returned tt /\
  document p1 = document p /\
  progress_object p1 /\
  nullish (prop (stored_progress p1) "module1") = false /\
  forall k, lesson_done k p1 = ((k =? n)%Z || lesson_done k p)%bool.
Proof.
  intros Hobj.
  destruct (saveProgress_object n p Hobj)
    as (props & ps & Hstored & Hjson & Hjps & Hm1 & Hrun).
  cbv zeta. rewrite Hrun. cbn [fst snd document].
  assert (Hfinal : forall base,
            is_json (JObj base) = true ->
            is_json (JObj (obj_set "module1"
                       (JObj (obj_set (lesson_key n) (JBool true) ps)) base)) = true).
  { intros base Hbase. apply is_json_obj_set; [exact Hbase |].
    apply is_json_obj_set; [exact Hjps | reflexivity]. }
  split; [reflexivity |]. split; [reflexivity |].
  match goal with
  | |- progress_object ?q /\ _ => set (p1 := q)
  end.
  assert (Hsp1 : stored_progress p1 =
            JObj (obj_set "module1"
                    (JObj (obj_set (lesson_key n) (JBool true) ps))
                    (if truthy (prop (JObj props) "module1") then props
                     else obj_set "module1" (JObj []) props))).
  { unfold stored_progress, p1. cbn [localStorage].
    rewrite lookup_insert_eq. reflexivity. }
  split; [| split].
  - unfold progress_object, p1. cbn [localStorage]. rewrite lookup_insert_eq.
    split.
    + apply Hfinal. destruct (truthy (prop (JObj props) "module1"));
        [exact Hjson | apply is_json_obj_set; [exact Hjson | reflexivity]].
    + right. eexists. apply prop_obj_set_eq.
  - rewrite Hsp1, prop_obj_set_eq. reflexivity.
  - intros k. unfold lesson_done. rewrite Hsp1, Hstored, prop_obj_set_eq.
    destruct (Z.eqb_spec k n) as [-> | Hk]; simpl orb.
    + rewrite prop_obj_set_eq. reflexivity.
    + rewrite prop_obj_set_ne
        by (intros Heq; apply Hk; exact (lesson_key_inj _ _ Heq)).
      destruct (truthy (prop (JObj props) "module1")) eqn:Ht.
      * rewrite Hm1. reflexivity.
      * subst ps. rewrite (falsy_has_no_lessons _ _ Ht). reflexivity.
Qed.

(** X20. On a progress store in the shape the page writes, with a
    [module1] that is not [null] or missing, [checkAccess] never throws:
    it grants access exactly to lesson 1 and to any lesson whose
    predecessor is marked complete. *)
Theorem X20_access_follows_progress (n : Z) (p : Page) :
  progress_object p ->
  nullish (prop (stored_progress p) "module1") = false ->
  fst (checkAccess n p) = Returned ((n =? 1)%Z || lesson_done (n - 1) p)%bool.
Proof.
  intros Hobj Hnn. rewrite (checkAccess_object n p Hobj Hnn).
  destruct (_ || _)%bool; reflexivity.
Qed.

Example X20_fresh_page_example :
  fst (checkAccess 3 (mkPage ∅ [] [])) = Returned false.
Proof.
  exact (X20_access_follows_progress 3 (mkPage ∅ [] []) I eq_refl).
Defined.

(** X21. [saveProgress n] marks lesson [n] complete and changes no other
    lesson: afterwards lesson [k] is complete exactly when [k = n] or it
    was complete before.  The call returns, leaves the document alone,
    and the store stays in the shape the page writes, now with an object
    under [module1]. *)
Theorem X21_save_marks_one_lesson (n : Z) (p : Page) :
  progress_object p ->
  let p1 := snd (saveProgress n p) in
  fst (saveProgress n p) = Returned tt /\
  document p1 = document p /\
  progress_object p1 /\
  nullish (prop (stored_progress p1) "module1") = false /\
  forall k, lesson_done k p1 = ((k =? n)%Z || lesson_done k p)%bool.
Proof. exact (saveProgress_effect n p). Qed.

Example X21_second_lesson_example :
  let p := mkPage {[ "warRoomProgress" :=
                       JsonText (JObj [("module1",
                                        JObj [("lesson1", JBool true)])]) ]} [] [] in
  lesson_done 1 (snd (saveProgress 2 p)) = true /\
  lesson_done 2 (snd (saveProgress 2 p)) = true /\
  lesson_done 3 (snd (saveProgress 2 p)) = false.
Proof.
  intro p.
  assert (Hobj : progress_object p).
  { split; [reflexivity |]. right. eexists. reflexivity. }
  destruct (X21_save_marks_one_lesson 2 p Hobj) as (_ & _ & _ & _ & H).
  rewrite !H. repeat split; reflexivity.
Defined.

(** X22. Saving lesson [n] opens lesson [n + 1]: after [saveProgress n]
    on a store in the shape the page writes (missing and empty included,
    and also one whose [module1] is missing), [checkAccess (n + 1)]
    returns [true] without alert or redirect. *)
Theorem X22_save_then_access (n : Z) (p : Page) :
  progress_object p ->
  let p1 := snd (saveProgress n p) in
  checkAccess (n + 1) p1 = (Returned true, p1).
Proof.
  intros Hobj p1.
  destruct (saveProgress_effect n p Hobj) as (_ & _ & Hobj1 & Hnn & Hdone).
  fold p1 in Hobj1, Hnn, Hdone.
  rewrite (checkAccess_object (n + 1) p1 Hobj1 Hnn).
  replace (n + 1 - 1) with n by lia.
  rewrite Hdone, Z.eqb_refl, orb_true_r. reflexivity.
Qed.

Example X22_repairs_missing_module1_example :
  let p := mkPage {[ "warRoomProgress" := JsonText (JObj []) ]} [] [] in
  checkAccess 2 (snd (saveProgress 1 p)) = (Returned true, snd (saveProgress 1 p)).
Proof.
  intro p.
  apply (X22_save_then_access 1 p).
  split; [reflexivity |]. left. reflexivity.
Defined.

(** ** Progress badges *)

Lemma class_add_idem (c : string) (el : Element) :
  class_add c (class_add c el) = class_add c el.
Proof.
  unfold class_add. destruct (existsb (String.eqb c) (classList el)) eqn:H.
  - rewrite H. reflexivity.
  - simpl. rewrite existsb_app. simpl. rewrite String.eqb_refl.
    rewrite orb_true_r. reflexivity.
Qed.

Lemma class_add_data (c : string) (el : Element) :
  data_lesson (class_add c el) = data_lesson el.
Proof. unfold class_add. destruct (existsb _ _); reflexivity. Qed.

Lemma query_lesson_Some (v : string) (doc : list Element) (c : nat) :
  query_lesson v doc = Some c ->
  exists el, doc !! c = Some el /\ data_lesson el = Some v.
Proof.
  revert c. induction doc as [| el doc IH]; intros c; simpl; [discriminate |].
  destruct (data_lesson el) as [v'|] eqn:Hd.
  - destruct (String.eqb_spec v' v) as [-> | Hne].
    + intros [= <-]. exists el. auto.
    + destruct (query_lesson v doc) as [c'|]; [| discriminate].
      intros [= <-]. destruct (IH c' eq_refl) as (el' & H1 & H2). eauto.
  - destruct (query_lesson v doc) as [c'|]; [| discriminate].
    intros [= <-]. destruct (IH c' eq_refl) as (el' & H1 & H2). eauto.
Qed.

Lemma query_lesson_alter (v c : string) (k : nat) (doc : list Element) :
  query_lesson v (alter (class_add c) k doc) = query_lesson v doc.
Proof.
  revert k. induction doc as [| el doc IH]; intros k; [reflexivity |].
  destruct k as [| k]; simpl.
  - rewrite class_add_data. reflexivity.
  - change (list_alter (class_add c) k doc) with (alter (class_add c) k doc).
    rewrite IH. reflexivity.
Qed.

Lemma badges_refl (doc : list Element) : badges_only_added doc doc.
Proof. split; [reflexivity | auto]. Qed.

Lemma badges_trans (d1 d2 d3 : list Element) :
  badges_only_added d1 d2 -> badges_only_added d2 d3 -> badges_only_added d1 d3.
Proof.
  intros [L12 H12] [L23 H23]. split; [congruence |].
  intros i el Hel.
  destruct (H12 i el Hel) as [H | (H & j & Hj & Hd)].
  - exact (H23 i el H).
  - destruct (H23 i _ H) as [H' | (H' & _)].
    + right. eauto.
    + right. rewrite class_add_idem in H'. eauto.
Qed.

Lemma badges_alter (doc : list Element) (c : nat) (j : Z) (el : Element) :
  1 <= j <= 4 -> doc !! c = Some el -> data_lesson el = Some (pretty j) ->
  badges_only_added doc (alter (class_add "completed") c doc).
Proof.
  intros Hj Hc Hd. split; [apply length_alter |].
  intros i el' Hi.
  destruct (decide (i = c)) as [-> | Hne].
  - right. rewrite list_lookup_alter_eq, Hi. simpl.
    assert (el' = el) by congruence. subst el'. eauto.
  - left. rewrite list_lookup_alter_ne by congruence. exact Hi.
Qed.

Lemma mark_card_badges (progress : JSValue) (j : Z) (p : Page) :
  1 <= j <= 4 ->
  let p' := snd (mark_card progress j p) in
  localStorage p' = localStorage p /\
  page_trace p' = page_trace p /\
  badges_only_added (document p) (document p').
Proof.
  intros Hj. unfold mark_card, pbind, plift, pret, add_class_at.
  destruct (query_lesson (pretty j) (document p)) as [c|] eqn:Hq; simpl.
  - destruct (query_lesson_Some _ _ _ Hq) as (el & Hel & Hd).
    repeat (break_match; simpl);
      repeat split; try reflexivity; try apply badges_refl;
      try (apply length_alter);
      try (apply (badges_alter _ _ j el Hj Hel Hd)).
  - repeat split; try reflexivity. apply badges_refl.
Qed.

Lemma for_each_badges (progress : JSValue) (l : list Z) (p : Page) :
  List.Forall (fun j => 1 <= j <= 4) l ->
  let p' := snd (for_each l (mark_card progress) p) in
  localStorage p' = localStorage p /\
  page_trace p' = page_trace p /\
  badges_only_added (document p) (document p').
Proof.
  intros Hl. revert p. induction Hl as [| j l Hj _ IH]; intros p; simpl.
  - repeat split; try reflexivity. apply badges_refl.
  - unfold pbind.
    destruct (mark_card_badges progress j p Hj) as (H1 & H2 & H3).
    destruct (mark_card progress j p) as [[[]|e] p1]; simpl in *.
    + destruct (IH p1) as (H1' & H2' & H3').
      split; [congruence | split; [congruence | eapply badges_trans; eauto]].
    + auto.
Qed.

(** X23. [updateProgressIndicators] can only add badges: it leaves
    storage and the rest of the page alone, keeps every element and its
    [data-lesson], and the one change it can make to an element is to
    add the class [completed], and only where [data-lesson] is 1, 2, 3
    or 4.  This holds also for a run that throws part way. *)
Theorem X23_badges_are_only_added (p : Page) :
  let p' := snd (updateProgressIndicators p) in
  localStorage p' = localStorage p /\
  page_trace p' = page_trace p /\
  badges_only_added (document p) (document p').
Proof.
  cbv zeta. unfold updateProgressIndicators, pbind.
  assert (Hread : forall q, snd (read_progress q) = q).
  { intros q. unfold read_progress, pbind, getItem, pret, plift.
    destruct (localStorage q !! "warRoomProgress") as [[| | v]|]; reflexivity. }
  specialize (Hread p).
  destruct (read_progress p) as [[progress|e] p0]; cbn [snd] in Hread; subst p0;
    cbv beta iota.
  - apply (for_each_badges progress (seqZ 1 4) p). repeat constructor; lia.
  - cbn [snd]. split; [reflexivity | split; [reflexivity | apply badges_refl]].
Qed.

Section Badges.

Context (progress : JSValue).
Context (Hprogress : nullish progress = false)
        (Hmodule1 : nullish (prop progress "module1") = false).

Local Abbreviation done := (marked_in progress).
Local Abbreviation step := (badge_step progress).

Lemma mark_card_run (j : Z) (p : Page) :
  fst (mark_card progress j p) = Returned tt /\
  document (snd (mark_card progress j p)) = step (document p) j.
Proof.
  unfold mark_card, badge_step, marked_in, pbind, plift, pret, add_class_at.
  destruct (query_lesson (pretty j) (document p)) as [c|]; [| auto].
  rewrite (get_prop_prop progress "module1" Hprogress).
  rewrite (get_prop_prop _ (lesson_key j) Hmodule1).
  cbn [fst snd document].
  destruct (truthy _); cbn; auto.
Qed.

Lemma for_each_run (l : list Z) (p : Page) :
  fst (for_each l (mark_card progress) p) = Returned tt /\
  document (snd (for_each l (mark_card progress) p))
    = fold_left step l (document p).
Proof.
  revert p. induction l as [| j l IH]; intros p; [auto |].
  cbn [for_each fold_left]. unfold pbind.
  destruct (mark_card_run j p) as [H1 H2].
  destruct (mark_card progress j p) as [r p1]. cbn [fst snd] in H1, H2.
  subst r. rewrite <- H2. apply IH.
Qed.

Lemma fold_step_card (i : Z) (l : list Z) (doc : list Element)
    (c : nat) (el : Element) :
  query_lesson (pretty i) doc = Some c ->
  doc !! c = Some el ->
  fold_left step l doc !! c =
    Some (if (done i && existsb (Z.eqb i) l)%bool
          then class_add "completed" el else el).
Proof.
  revert doc el. induction l as [| j l IH]; intros doc el Hq Hel.
  - cbn. rewrite andb_false_r. exact Hel.
  - cbn [fold_left existsb]. unfold badge_step at 2.
    destruct (query_lesson (pretty j) doc) as [cj|] eqn:Hqj.
    + destruct (done j) eqn:Hdj.
      * destruct (decide (cj = c)) as [-> | Hne].
        -- destruct (query_lesson_Some _ _ _ Hqj) as (el' & Hel' & Hd').
           destruct (query_lesson_Some _ _ _ Hq) as (el'' & Hel'' & Hd'').
           assert (i = j).
           { apply (inj pretty). congruence. }
           subst j. rewrite Hdj, Z.eqb_refl. cbn [orb andb].
           rewrite (IH _ (class_add "completed" el)).
           ++ rewrite class_add_idem. destruct (_ && _)%bool; reflexivity.
           ++ rewrite query_lesson_alter. exact Hq.
           ++ rewrite list_lookup_alter_eq, Hel. reflexivity.
        -- assert (Hij : (i =? j)%Z = false).
           { apply Z.eqb_neq. intros ->. congruence. }
           rewrite Hij. cbn [orb].
           apply IH.
           ++ rewrite query_lesson_alter. exact Hq.
           ++ rewrite list_lookup_alter_ne by congruence. exact Hel.
      * destruct (Z.eqb_spec i j) as [-> | Hij]; cbn [orb].
        -- rewrite Hdj. cbn [andb].
           rewrite (IH doc el Hq Hel), Hdj. reflexivity.
        -- apply IH; assumption.
    + assert (Hij : (i =? j)%Z = false).
      { apply Z.eqb_neq. intros ->. congruence. }
      rewrite Hij. cbn [orb]. apply IH; assumption.
Qed.

End Badges.

(** X24. With a progress store in the shape the page writes and a
    [module1] that is not [null] or missing, [updateProgressIndicators]
    returns, and afterwards the first card of each lesson 1 to 4 has
    gained the class [completed] exactly if that lesson is marked
    complete (a card of a lesson not completed is as it was). *)
Theorem X24_badge_iff_completed
    (p : Page) (i : Z) (c : nat) (el : Element) :
  progress_object p ->
  nullish (prop (stored_progress p) "module1") = false ->
  1 <= i <= 4 ->
  query_lesson (pretty i) (document p) = Some c ->
  document p !! c = Some el ->
  fst (updateProgressIndicators p) = Returned tt /\
  document (snd (updateProgressIndicators p)) !! c =
    Some (if lesson_done i p then class_add "completed" el else el).
Proof.
  intros Hobj Hm1 Hi Hq Hel.
  assert (Hread : read_progress p = (Returned (stored_progress p), p)).
  { unfold progress_object in Hobj. unfold read_progress, stored_progress,
      pbind, getItem, pret, plift.
    destruct (localStorage p !! "warRoomProgress") as [[| | v]|];
      try contradiction; reflexivity. }
  assert (Hnn : nullish (stored_progress p) = false).
  { unfold progress_object in Hobj. unfold stored_progress.
    destruct (localStorage p !! "warRoomProgress") as [[| | v]|];
      try contradiction; try reflexivity.
    destruct v; try contradiction; reflexivity. }
  unfold updateProgressIndicators, pbind. rewrite Hread.
  destruct (for_each_run (stored_progress p) Hnn Hm1 (seqZ 1 4) p) as [H1 H2].
  split; [exact H1 |].
  rewrite H2.
  rewrite (fold_step_card (stored_progress p) i (seqZ 1 4) (document p) c el Hq Hel).
  unfold lesson_done, marked_in.
  assert (Hin : existsb (Z.eqb i) (seqZ 1 4) = true).
  { apply existsb_exists. exists i. split; [| apply Z.eqb_refl].
    apply list_elem_of_In, elem_of_seqZ. lia. }
  rewrite Hin, andb_true_r. reflexivity.
Qed.

Example X24_one_card_example :
  let card := mkElement (Some "2") ["lesson-card"] in
  let p := mkPage {[ "warRoomProgress" :=
                       JsonText (JObj [("module1",
                                        JObj [("lesson2", JBool true)])]) ]}
             [mkElement None []; card] [] in
  fst (updateProgressIndicators p) = Returned tt /\
  document (snd (updateProgressIndicators p)) !! 1%nat =
    Some (mkElement (Some "2") ["lesson-card"; "completed"]).
Proof.
  intros card p.
  apply (X24_badge_iff_completed p 2 1%nat card).
  - split; [reflexivity |]. right. eexists. reflexivity.
  - reflexivity.
  - lia.
  - reflexivity.
  - reflexivity.
Defined.

(** ** The page talking to the worker *)

Ltac client_cases request env w rl s1 d Hd :=
  unfold sendToAI, worker_net, try_catch at 1, bind at 1 2;
  unfold fetch; cbn [method via_edge client_request];
  cbv beta iota zeta delta [String.eqb Ascii.eqb Bool.eqb negb];
  fetch_post_cases request env w rl s1 d Hd.

(** X25. Against the deployed worker [sendToAI] never ends in its catch
    block, and resolves either to a success carrying the reply text, or
    to a failure carrying one of the worker's five messages (never the
    fallback [Failed to get response]).  On success
    [requestsRemaining] is always [undefined]: the worker does not send
    that field. *)
Theorem X25_page_sees_worker_answers
    {S : Type} (env : Env S) (ip : string) (prompt : JSValue) (w : World S) :
  exists result,
    fst (sendToAI (worker_net env ip) prompt w) = Returned result /\
    ((exists text, result = AiSuccess (JStr text) JUndefined) \/
     result = AiFailure (JStr CONFIG_RATE_LIMIT_MESSAGE) \/
     result = AiFailure (JStr "Invalid request: prompt is required") \/
     result = AiFailure (JStr "Service configuration error") \/
     result = AiFailure (JStr "AI service temporarily unavailable") \/
     result = AiFailure (JStr "An unexpected error occurred")).
Proof.
  client_cases (via_edge ip (client_request prompt)) env w rl s1 d Hd;
    (eexists; split; [reflexivity |]);
    first [ left; eexists; reflexivity
          | repeat (first [left; reflexivity | right]); reflexivity ].
Qed.

(** X26. The page and the worker agree on the field name: a prompt that
    is a non-empty string, sent as [message], is never answered with the
    worker's [Invalid request] error; any other prompt (empty, missing,
    or not a string) is answered with that error unless the request is
    rate limited first. *)
Theorem X26_message_field_is_accepted
    {S : Type} (env : Env S) (ip : string) (prompt : JSValue) (w : World S) :
  let result := fst (sendToAI (worker_net env ip) prompt w) in
  ((exists s, prompt = JStr s /\ s <> EmptyString) ->
     result <> Returned (AiFailure (JStr "Invalid request: prompt is required"))) /\
  (~ (exists s, prompt = JStr s /\ s <> EmptyString) ->
     result = Returned (AiFailure (JStr "Invalid request: prompt is required")) \/
     result = Returned (AiFailure (JStr CONFIG_RATE_LIMIT_MESSAGE))).
Proof.
  cbv zeta. split.
  - intros (s & -> & Hs).
    assert (Ht : String.eqb s EmptyString = false)
      by (apply String.eqb_neq; exact Hs).
    client_cases (via_edge ip (client_request (JStr s))) env w rl s1 d Hd;
      try discriminate;
      rewrite Ht in *; discriminate.
  - intros Hbad.
    assert (Hcase : prompt = JStr EmptyString \/ is_string prompt = false).
    { destruct prompt; auto. destruct (String.eqb_spec s EmptyString); [subst; auto |].
      exfalso. apply Hbad. eauto. }
    destruct Hcase as [-> | Hns].
    + client_cases (via_edge ip (client_request (JStr EmptyString))) env w rl s1 d Hd;
        first [left; reflexivity | right; reflexivity | discriminate].
    + destruct prompt; try discriminate Hns;
        match goal with
        | |- context [sendToAI _ ?q _] =>
            client_cases (via_edge ip (client_request q)) env w rl s1 d Hd
        end;
        first [ left; reflexivity | right; reflexivity | discriminate
              | exfalso;
                match goal with
                | H : (_ || true)%bool = false |- _ =>
                    rewrite orb_true_r in H; discriminate H
                end ].
Qed.

Example X26_plain_prompt_example :
  fst (sendToAI (worker_net env_mem "1.2.3.4") (JStr "Hello") (world0 upstream_hello))
    <> Returned (AiFailure (JStr "Invalid request: prompt is required")).
Proof.
  apply (proj1 (X26_message_field_is_accepted env_mem "1.2.3.4" (JStr "Hello")
                  (world0 upstream_hello))).
  exists "Hello". split; [reflexivity | discriminate].
Defined.

(** X27. The page recognises rate limiting by the message it has in
    [CONFIG.RATE_LIMIT_MESSAGE], and that is the text the worker sends:
    [sendToAI] resolves to a failure with exactly that message if and
    only if the worker answered 429. *)
Theorem X27_rate_limit_message_agrees
    {S : Type} (env : Env S) (ip : string) (prompt : JSValue) (w : World S) :
  (exists r,
     fst (fetch (via_edge ip (client_request prompt)) env w) = Returned r /\
     status r = 429) <->
  fst (sendToAI (worker_net env ip) prompt w)
    = Returned (AiFailure (JStr CONFIG_RATE_LIMIT_MESSAGE)).
Proof.
  unfold sendToAI, worker_net, fetch. cbn [method via_edge client_request].
  cbv beta iota zeta delta [String.eqb Ascii.eqb Bool.eqb negb].
  fetch_post_cases (via_edge ip (client_request prompt)) env w rl s1 d Hd;
    (split;
     [ intros (r & Hr & Hst); injection Hr as <-; simpl in Hst;
       first [discriminate Hst | reflexivity]
     | intros H;
       first [ discriminate H
             | eexists; split; reflexivity ] ]).
Qed.

(** * Properties of the core script (app.js) *)

Lemma core_getProgressData_run (b : App.Browser) :
  App.getProgressData b = (Returned (App.progress_data b), b) \/
  App.getProgressData b =
    (Returned (App.progress_data b),
     App.mkBrowser (App.local_items b) (App.session_items b)
       (App.trace b ++ [App.ConsoleError "Error reading progress data:"])).
Proof.
  unfold App.getProgressData, App.progress_data, App.btry, App.bbind, App.bret,
    App.blift, App.local_getItem, App.session_getItem, App.emit.
  destruct (App.local_items b !! "warRoomProgress") as [[| | v]|]; simpl;
    try destruct (App.session_items b !! "warRoomProgress") as [[| | v']|];
    simpl; auto.
Qed.

Lemma core_progress_data_stores (b b' : App.Browser) :
  App.local_items b' = App.local_items b ->
  App.session_items b' = App.session_items b ->
  App.progress_data b' = App.progress_data b.
Proof. unfold App.progress_data. intros -> ->. reflexivity. Qed.

Lemma core_scan_four (progress : JSValue) :
  nullish progress = false ->
  nullish (prop progress "module1") = false ->
  let done i := App.strict_true (prop (prop progress "module1") (lesson_key i)) in
  exists last,
    App.scan_completed progress [4; 3; 2; 1] = Returned last /\
    0 <= last <= 4 /\
    (0 < last -> done last = true) /\
    (forall i, last < i <= 4 -> done i = false).
Proof.
  intros Hp Hm done. cbn [App.scan_completed].
  rewrite (get_prop_prop progress "module1" Hp). cbn [obind].
  rewrite !(get_prop_prop _ _ Hm). cbn [obind].
  fold (done 4) (done 3) (done 2) (done 1).
  destruct (done 4) eqn:H4; [| destruct (done 3) eqn:H3;
    [| destruct (done 2) eqn:H2; [| destruct (done 1) eqn:H1]]];
    eexists; (split; [reflexivity |]); (split; [lia |]);
    (split; [intros Hpos; try assumption; lia |]);
    intros i Hi;
    assert (Hcases : i = 1 \/ i = 2 \/ i = 3 \/ i = 4) by lia;
    destruct Hcases as [-> | [-> | [-> | ->]]]; try assumption; lia.
Qed.

Lemma core_scan_unreadable (progress : JSValue) (i : Z) (l : list Z) :
  nullish progress = true \/ nullish (prop progress "module1") = true ->
  exists e, App.scan_completed progress (i :: l) = Thrown e.
Proof.
  intros H. cbn [App.scan_completed].
  destruct progress; simpl in *; eauto;
    try (destruct H as [H | H]; discriminate H).
  destruct H as [H | H]; [discriminate H |].
  unfold prop in H. simpl in H.
  destruct (assoc_last "module1" props) as [m1|]; simpl; eauto.
  destruct m1; simpl in *; eauto; discriminate H.
Qed.

(** X28. [getLastCompletedLesson] returns the highest lesson from 4 down
    to 1 recorded as exactly [true], and 0 when there is none, whenever
    the progress can be read down to its lessons; when it cannot (the
    stored value is [null], or has no [module1]) it throws: the function
    has no handler of its own. *)
Theorem X28_last_completed_lesson (b : App.Browser) :
  (App.lessons_readable b = true ->
     exists last,
       fst (App.getLastCompletedLesson b) = Returned last /\
       0 <= last <= 4 /\
       (0 < last -> App.completed b last = true) /\
       (forall i, last < i <= 4 -> App.completed b i = false)) /\
  (App.lessons_readable b = false ->
     exists e, fst (App.getLastCompletedLesson b) = Thrown e).
Proof.
  unfold App.lessons_readable, App.getLastCompletedLesson, App.bbind, App.blift,
    App.completed.
  split; intros Hr.
  - apply andb_true_iff in Hr as [Hp Hm].
    apply negb_true_iff in Hp, Hm.
    destruct (core_scan_four _ Hp Hm) as (last & Hrun & Hrest).
    exists last. split; [| exact Hrest].
    destruct (core_getProgressData_run b) as [-> | ->]; cbn; exact Hrun.
  - assert (Hbad : nullish (App.progress_data b) = true \/
                   nullish (prop (App.progress_data b) "module1") = true).
    { apply andb_false_iff in Hr as [H | H]; apply negb_false_iff in H; auto. }
    destruct (core_scan_unreadable _ 4 [3; 2; 1] Hbad) as (e & He).
    exists e.
    destruct (core_getProgressData_run b) as [-> | ->]; cbn; exact He.
Qed.

Example X28_two_lessons_example :
  let b := App.mkBrowser
             {[ "warRoomProgress" :=
                  JsonText (JObj [("module1",
                                   JObj [ ("lesson1", JBool true);
                                          ("lesson2", JBool true);
                                          ("lesson3", JNum 1) ])]) ]}
             ∅ [] in
  exists last,
    fst (App.getLastCompletedLesson b) = Returned last /\
    0 <= last <= 4 /\
    (0 < last -> App.completed b last = true) /\
    (forall i, last < i <= 4 -> App.completed b i = false).
Proof.
  intro b. apply (proj1 (X28_last_completed_lesson b)). reflexivity.
Defined.

Lemma core_checkAccess_cases (n : Z) (b : App.Browser) :
  let b' := snd (App.checkAccess n b) in
  App.local_items b' = App.local_items b /\
  App.session_items b' = App.session_items b /\
  exists logs,
    forallb (fun e => negb (App.is_navigate e)) logs = true /\
    ((fst (App.checkAccess n b) = Returned true /\
      ((n =? 1)%Z || negb (App.lessons_readable b) || App.completed b (n - 1))%bool
        = true /\
      App.trace b' = (App.trace b ++ logs)%list) \/
     (fst (App.checkAccess n b) = Returned false /\
      ((n =? 1)%Z || negb (App.lessons_readable b) || App.completed b (n - 1))%bool
        = false /\
      exists last,
        App.scan_completed (App.progress_data b) [4; 3; 2; 1] = Returned last /\
        App.trace b' =
          (App.trace b ++ logs ++
             [App.Navigate (App.redirect_target last)])%list)).
Proof.
  cbv zeta. unfold App.checkAccess, App.btry, App.bbind.
  unfold App.lessons_readable, App.completed.
  set (P := App.progress_data b).
  assert (Hinner : forall b1,
            App.local_items b1 = App.local_items b ->
            App.session_items b1 = App.session_items b ->
            exists logs1,
              forallb (fun e => negb (App.is_navigate e)) logs1 = true /\
              App.getProgressData b1 =
                (Returned P,
                 App.mkBrowser (App.local_items b) (App.session_items b)
                   (App.trace b1 ++ logs1))).
  { intros b1 Hl Hs. subst P.
    rewrite <- (core_progress_data_stores b b1 Hl Hs).
    destruct (core_getProgressData_run b1) as [H | H]; rewrite H.
    - exists []. split; [reflexivity |]. rewrite app_nil_r, <- Hl, <- Hs.
      destruct b1; reflexivity.
    - eexists. split; [| rewrite Hl, Hs; reflexivity]. reflexivity. }
  destruct (Hinner b eq_refl eq_refl) as (logs0 & Hlogs0 & ->).
  destruct (Z.eqb_spec n 1) as [-> | Hn]; cbn [orb].
  { cbn. split; [reflexivity | split; [reflexivity |]]. exists logs0. split; [exact Hlogs0 |]. left. auto. }
  unfold App.bbind, App.blift, App.bret, App.emit. cbn [fst snd].
  destruct (nullish P) eqn:Hp.
  { assert (Hget : exists e, get_prop P "module1" = Thrown e)
      by (destruct P; simpl in Hp; try discriminate Hp; simpl; eauto).
    destruct Hget as (e & ->). cbn.
    split; [reflexivity | split; [reflexivity |]].
    exists (logs0 ++ [App.ConsoleError "Error checking access:"])%list.
    split; [rewrite forallb_app, Hlogs0; reflexivity |].
    left. rewrite <- app_assoc. auto. }
  rewrite (get_prop_prop P "module1" Hp).
  destruct (nullish (prop P "module1")) eqn:Hm.
  { assert (Hget : exists e,
              get_prop (prop P "module1") (lesson_key (n - 1)) = Thrown e)
      by (destruct (prop P "module1"); simpl in Hm; try discriminate Hm;
          simpl; eauto).
    destruct Hget as (e & ->). cbn.
    split; [reflexivity | split; [reflexivity |]].
    exists (logs0 ++ [App.ConsoleError "Error checking access:"])%list.
    split; [rewrite forallb_app, Hlogs0; reflexivity |].
    left. rewrite <- app_assoc. auto. }
  rewrite (get_prop_prop _ (lesson_key (n - 1)) Hm). cbn [andb negb orb].
  destruct (App.strict_true (prop (prop P "module1") (lesson_key (n - 1)))) eqn:Hc.
  { cbn. split; [reflexivity | split; [reflexivity |]]. exists logs0. split; [exact Hlogs0 |]. left. auto. }
  cbn [negb]. unfold App.getLastCompletedLesson, App.bbind, App.blift.
  match goal with
  | |- context [App.getProgressData ?b1] =>
      destruct (Hinner b1 eq_refl eq_refl) as (logs1 & Hlogs1 & ->)
  end.
  destruct (core_scan_four P Hp Hm) as (last & Hscan & _).
  rewrite Hscan. cbn.
  split; [reflexivity | split; [reflexivity |]]. exists (logs0 ++ logs1)%list.
  split; [rewrite forallb_app, Hlogs0, Hlogs1; reflexivity |].
  right. split; [reflexivity |]. split; [reflexivity |].
  exists last. split; [reflexivity |]. rewrite <- !app_assoc. reflexivity.
Qed.

(** X29. [checkAccess] of app.js fails open and only reads.  It never
    throws and never writes either storage; it grants access to lesson
    1, to a lesson whose predecessor is recorded as exactly [true], and
    also to every lesson when the stored progress cannot be read down to
    its lessons (a stored [null], or an object without [module1]). *)
Theorem X29_core_access_fails_open (n : Z) (b : App.Browser) :
  fst (App.checkAccess n b) =
    Returned ((n =? 1)%Z || negb (App.lessons_readable b)
              || App.completed b (n - 1))%bool /\
  App.local_items (snd (App.checkAccess n b)) = App.local_items b /\
  App.session_items (snd (App.checkAccess n b)) = App.session_items b.
Proof.
  destruct (core_checkAccess_cases n b)
    as (Hl & Hs & logs & _ & [(Hr & He & _) | (Hr & He & _)]);
    rewrite Hr, He; auto.
Qed.

(** X30. [checkAccess] of app.js navigates exactly when it denies
    access, once, and to the page of the last completed lesson
    ([index.html] when there is none); that lesson may lie after the
    one asked for.  A call that grants access only logs, if anything. *)
Theorem X30_core_redirect_target (n : Z) (b : App.Browser) :
  let b' := snd (App.checkAccess n b) in
  (fst (App.checkAccess n b) = Returned true ->
     forallb (fun e => negb (App.is_navigate e)) (App.added b b') = true) /\
  (fst (App.checkAccess n b) = Returned false ->
     exists last logs,
       fst (App.getLastCompletedLesson b) = Returned last /\
       forallb (fun e => negb (App.is_navigate e)) logs = true /\
       App.added b b' = (logs ++ [App.Navigate (App.redirect_target last)])%list).
Proof.
  cbv zeta. unfold App.added.
  destruct (core_checkAccess_cases n b)
    as (_ & _ & logs & Hlogs & [(Hr & _ & Ht) | (Hr & _ & last & Hscan & Ht)]);
    rewrite Hr, Ht, drop_app_length; split; intros H; try discriminate H.
  - exact Hlogs.
  - exists last, logs. split; [| split; [exact Hlogs | reflexivity]].
    unfold App.getLastCompletedLesson, App.bbind, App.blift.
    destruct (core_getProgressData_run b) as [-> | ->]; cbn; exact Hscan.
Qed.

Example X30_forward_redirect_example :
  let b := App.mkBrowser
             {[ "warRoomProgress" :=
                  JsonText (JObj [("module1",
                                   JObj [ ("lesson1", JBool false);
                                          ("lesson3", JBool true) ])]) ]}
             ∅ [] in
  exists last logs,
    fst (App.getLastCompletedLesson b) = Returned last /\
    forallb (fun e => negb (App.is_navigate e)) logs = true /\
    App.added b (snd (App.checkAccess 2 b))
      = (logs ++ [App.Navigate (App.redirect_target last)])%list.
Proof.
  intro b. apply (proj2 (X30_core_redirect_target 2 b)). reflexivity.
Defined.

(** X14. [getProgressData] never throws and writes nothing.  A
    non-empty local item decides alone: its value if it parses, the
    default progress if it does not, the session item not being looked
    at; only a missing or empty local item lets the session item in,
    under the same rule; with neither, the result is the default. *)
Theorem X14_core_progress_sources (b : App.Browser) :
  exists v,
    fst (App.getProgressData b) = Returned v /\
    App.local_items (snd (App.getProgressData b)) = App.local_items b /\
    App.session_items (snd (App.getProgressData b)) = App.session_items b /\
    v = match App.local_items b !! "warRoomProgress" with
        | Some (JsonText x) => x
        | Some NotJson => App.default_progress
        | Some EmptyText | None =>
            match App.session_items b !! "warRoomProgress" with
            | Some (JsonText y) => y
            | _ => App.default_progress
            end
        end.
Proof.
  exists (App.progress_data b).
  destruct (core_getProgressData_run b) as [H | H]; rewrite H; cbn [fst snd];
    (split; [reflexivity |]); (split; [reflexivity |]);
    (split; [reflexivity |]);
    unfold App.progress_data;
    destruct (App.local_items b !! "warRoomProgress") as [[| | x]|]; cbn;
    try reflexivity;
    destruct (App.session_items b !! "warRoomProgress") as [[| | y]|];
    reflexivity.
Qed.

Example X13_text_and_tool_example :
  exists text,
    extract_text
      (JObj [("content",
              JArr [ JObj [("type", JStr "text"); ("text", JStr "Hello")];
                     JObj [("type", JStr "tool_use")] ])])
    = Returned text.
Proof.
  apply (proj2 (X13_extract_text_defined _)).
  eexists. split; [reflexivity |]. split; [repeat constructor |].
  repeat (constructor;
          [vm_compute; intros H; first [reflexivity | discriminate H] |]).
  constructor.
Defined.

Example X17_locked_lesson_example :
  let p := mkPage ∅ [] [] in
  page_trace (snd (checkAccess 2 p)) =
    (page_trace p ++
       [ EvAlert ("You must complete Lesson " +:+ pretty (2 - 1) +:+ " first.");
         EvNavigate ("lesson-" +:+ pretty (2 - 1) +:+ ".html") ])%list.
Proof.
  intro p.
  destruct (X17_checkAccess_reads_only 2 p) as (_ & _ & [H _] & _).
  exact (H eq_refl).
Defined.

Example X27_full_record_example :
  let w := world_with "ratelimit:1.2.3.4"
             {| count := 50; resetAt := 1700000100 |} 1700000100 upstream_hello in
  fst (sendToAI (worker_net env_mem "1.2.3.4") (JStr "Hello") w)
    = Returned (AiFailure (JStr CONFIG_RATE_LIMIT_MESSAGE)).
Proof.
  intro w.
  apply (proj1 (X27_rate_limit_message_agrees env_mem "1.2.3.4" (JStr "Hello") w)).
  eexists. split; reflexivity.
Defined.
